(** * A shallow embedding of the brand-scrape pipeline (bixy_files)

    Python sources modelled here:
    - [src/run_brand_scrape.py]: [uniq], [download], [download_stream_capped],
      [guess_ext_from_content_type], [choose_top_images], [choose_top_videos]
      and the per-asset download loops of [scrape_brand_report];
    - [src/zenrows_scraper/run_brand_scrape.py]: [choose_top_images],
      [hex_to_rgb], [build_contrast_checks], [_srgb_to_linear],
      [relative_luminance] and [contrast_ratio];
    - [src/extract_dom.py] and [src/zenrows_scraper/extract_dom.py]:
      [_is_tracker], [_same_domain], [_dedupe], [_pick_logo_img],
      [_pick_inline_logo_svg], [_normalize_media_url], [_collect_video_urls],
      [extract_dom];
    - [src/zenrows_fetch.py] and [src/zenrows_scraper/zenrows_fetch.py]:
      the retry loop of [zenrows_get] and the configuration ladder of
      [fetch_rendered_html].

    Python strings are [string]: a character is a code point below 256
    (ASCII and Latin-1), on which [str.lower] and [str.isspace] are
    modelled.
    Network, file system and subprocess effects are explicit oracles. *)

From Stdlib Require Import String Ascii List ZArith Lia Bool QArith Qminmax Lqa Permutation Sorted.
Import ListNotations.
Close Scope Q_scope.
Open Scope string_scope.
Set Warnings "-register-all".

(* ------------------------------------------------------------------ *)
(** ** Python string primitives *)

Module PyStr.

(** [str.lower] on one code point: [A-Z] and the Latin-1 capitals
    [U+00C0-U+00DE] except [U+00D7] move up by 32. *)
Definition lower_char (c : ascii) : ascii :=
  let n := nat_of_ascii c in
  if ((65 <=? n)%nat && (n <=? 90)%nat) ||
     ((192 <=? n)%nat && (n <=? 222)%nat && negb (n =? 215)%nat)
  then ascii_of_nat (n + 32)%nat else c.

(** [s.lower()] *)
Fixpoint lower (s : string) : string :=
  match s with
  | EmptyString => EmptyString
  | String c r => String (lower_char c) (lower r)
  end.

(** [needle in hay] *)
Fixpoint contains (needle hay : string) : bool :=
  if String.prefix needle hay then true
  else match hay with
       | EmptyString => false
       | String _ r => contains needle r
       end.

(** [s.startswith(p)] *)
Definition startswith (p s : string) : bool := String.prefix p s.

(** [s.endswith(suf)] *)
Definition endswith (suf s : string) : bool :=
  (String.length suf <=? String.length s)%nat &&
  String.eqb (substring (String.length s - String.length suf) (String.length suf) s) suf.

(** [str.isspace] on one code point, which [str.strip], [str.split] and
    [int] use: [\t\n\v\f\r], [\x1c-\x1f], the space, [\x85] and [\xa0]. *)
Definition is_space (c : ascii) : bool :=
  match nat_of_ascii c with
  | 9 | 10 | 11 | 12 | 13 | 28 | 29 | 30 | 31 | 32 | 133 | 160 => true
  | _ => false
  end.

Fixpoint lstrip (s : string) : string :=
  match s with
  | String c r => if is_space c then lstrip r else s
  | EmptyString => EmptyString
  end.

Fixpoint rev_str (s : string) : string :=
  match s with
  | EmptyString => EmptyString
  | String c r => rev_str r ++ String c EmptyString
  end.

(** [s.strip()] *)
Definition strip (s : string) : string := rev_str (lstrip (rev_str (lstrip s))).

(** [s.replace("www.", "")]: left-to-right, non-overlapping. *)
Fixpoint replace_www (s : string) : string :=
  match s with
  | String "w" (String "w" (String "w" (String "." r))) => replace_www r
  | String c r => String c (replace_www r)
  | EmptyString => EmptyString
  end.

(** [s.split(".")[0]] *)
Fixpoint before_dot (s : string) : string :=
  match s with
  | String "." _ => EmptyString
  | String c r => String c (before_dot r)
  | EmptyString => EmptyString
  end.

(** [s.split()] on whitespace, then [" ".join(...)] *)
Fixpoint split_ws_acc (cur : string) (s : string) : list string :=
  match s with
  | EmptyString => if String.eqb cur "" then [] else [rev_str cur]
  | String c r =>
      if is_space c then
        (if String.eqb cur "" then [] else [rev_str cur]) ++ split_ws_acc "" r
      else split_ws_acc (String c cur) r
  end.

Definition split_ws (s : string) : list string := split_ws_acc "" s.

Fixpoint join_space (l : list string) : string :=
  match l with
  | [] => ""
  | [x] => x
  | x :: r => x ++ " " ++ join_space r
  end.

(** [x in seen] for a Python set of strings *)
Definition mem (x : string) (l : list string) : bool := existsb (String.eqb x) l.

End PyStr.

Import PyStr.

(* ------------------------------------------------------------------ *)
(** ** [guess_ext_from_content_type] (src/run_brand_scrape.py) *)

Module ContentType.

Definition mapping : list (string * string) :=
  [("image/png", "png"); ("image/jpeg", "jpg"); ("image/jpg", "jpg");
   ("image/webp", "webp"); ("image/gif", "gif"); ("video/mp4", "mp4");
   ("video/webm", "webm"); ("application/vnd.apple.mpegurl", "m3u8");
   ("application/x-mpegurl", "m3u8")].

Fixpoint lookup (k : string) (m : list (string * string)) : option string :=
  match m with
  | [] => None
  | (k', v) :: r => if String.eqb k k' then Some v else lookup k r
  end.

Definition url_exts : list string :=
  ["png"; "jpg"; "jpeg"; "webp"; "gif"; "mp4"; "webm"; "m3u8"].

Fixpoint scan_url (ul : string) (exts : list string) : option string :=
  match exts with
  | [] => None
  | ext :: r =>
      if contains ("." ++ ext) ul
      then Some (if String.eqb ext "jpeg" then "jpg" else ext)
      else scan_url ul r
  end.

(** [ct] and [fallback_url] are [None]-able in Python; [None] is [""]. *)
Definition guess_ext_from_content_type (ct fallback_url : string) : option string :=
  let ct := lower ct in
  match lookup ct mapping with
  | Some e => Some e
  | None => scan_url (lower fallback_url) url_exts
  end.

End ContentType.

(* ------------------------------------------------------------------ *)
(** ** [_dedupe], in its two versions *)

Module Dedupe.

(** src/extract_dom.py: [if not u or u in seen: continue] *)
Fixpoint dedupe_loop (seen : list string) (urls : list string) : list string :=
  match urls with
  | [] => []
  | u :: r =>
      if String.eqb u "" || mem u seen then dedupe_loop seen r
      else u :: dedupe_loop (u :: seen) r
  end.

Definition _dedupe (urls : list string) : list string := dedupe_loop [] urls.

(** src/zenrows_scraper/extract_dom.py: [if u in seen: continue] *)
Fixpoint dedupe_loop_v1 (seen : list string) (urls : list string) : list string :=
  match urls with
  | [] => []
  | u :: r =>
      if mem u seen then dedupe_loop_v1 seen r
      else u :: dedupe_loop_v1 (u :: seen) r
  end.

Definition _dedupe_v1 (urls : list string) : list string := dedupe_loop_v1 [] urls.

(** The specification's reading: keep the entries at their first position,
    dropping empty ones. *)
Fixpoint first_seen_from (before : list string) (urls : list string) : list string :=
  match urls with
  | [] => []
  | u :: r =>
      (if negb (String.eqb u "") && negb (mem u before) then [u] else [])
      ++ first_seen_from (before ++ [u]) r
  end.

Definition first_seen (urls : list string) : list string := first_seen_from [] urls.

(** The same, keeping empty entries. *)
Fixpoint first_seen_all_from (before : list string) (urls : list string) : list string :=
  match urls with
  | [] => []
  | u :: r =>
      (if negb (mem u before) then [u] else []) ++ first_seen_all_from (before ++ [u]) r
  end.

Definition first_seen_all (urls : list string) : list string := first_seen_all_from [] urls.

End Dedupe.

(* ------------------------------------------------------------------ *)
(** ** URL parsing ([urllib.parse]) *)

Module Url.

Definition is_alpha (c : ascii) : bool :=
  let n := nat_of_ascii c in
  ((65 <=? n)%nat && (n <=? 90)%nat) || ((97 <=? n)%nat && (n <=? 122)%nat).

Definition is_digit (c : ascii) : bool :=
  let n := nat_of_ascii c in (48 <=? n)%nat && (n <=? 57)%nat.

Definition is_scheme_char (c : ascii) : bool :=
  is_alpha c || is_digit c || Ascii.eqb c "+" || Ascii.eqb c "-" || Ascii.eqb c ".".

(** [urlsplit]'s scheme: the text before the first [:], when it is non-empty,
    starts with a letter and has only scheme characters. Returns the
    lower-cased scheme and the rest. *)
Fixpoint scheme_chars_then_colon (acc : string) (s : string) : option (string * string) :=
  match s with
  | EmptyString => None
  | String ":" r => Some (acc, r)
  | String c r => if is_scheme_char c then scheme_chars_then_colon (acc ++ String c "") r else None
  end.

(** [urlsplit] first strips leading C0 control characters and spaces
    ([url.lstrip(_WHATWG_C0_CONTROL_OR_SPACE)]) and then deletes every tab,
    CR and LF ([_UNSAFE_URL_BYTES_TO_REMOVE]). *)
Fixpoint lstrip_c0 (s : string) : string :=
  match s with
  | String c r => if (nat_of_ascii c <=? 32)%nat then lstrip_c0 r else s
  | EmptyString => EmptyString
  end.

Definition is_unsafe (c : ascii) : bool :=
  let n := nat_of_ascii c in (n =? 9)%nat || (n =? 10)%nat || (n =? 13)%nat.

Fixpoint remove_unsafe (s : string) : string :=
  match s with
  | String c r => if is_unsafe c then remove_unsafe r else String c (remove_unsafe r)
  | EmptyString => EmptyString
  end.

Definition sanitize (url : string) : string := remove_unsafe (lstrip_c0 url).

Definition split_scheme (url : string) : option string * string :=
  match url with
  | String c _ =>
      if is_alpha c then
        match scheme_chars_then_colon "" url with
        | Some (sch, rest) => (Some (lower sch), rest)
        | None => (None, url)
        end
      else (None, url)
  | EmptyString => (None, url)
  end.

(** [_splitnetloc]: up to the first of [/], [?], [#]. *)
Fixpoint take_netloc (s : string) : string * string :=
  match s with
  | EmptyString => ("", "")
  | String c r =>
      if Ascii.eqb c "/" || Ascii.eqb c "?" || Ascii.eqb c "#" then ("", s)
      else let (n, rest) := take_netloc r in (String c n, rest)
  end.

Definition split_netloc (rest : string) : string * string :=
  match rest with
  | String "/" (String "/" r) => take_netloc r
  | _ => ("", rest)
  end.

(** [urlparse(url).netloc]; [None] where [urlsplit] raises [ValueError]
    for unbalanced IPv6 brackets in the netloc. (Python 3.11.4 and later
    also validate the host inside a pair of brackets; that check is not
    modelled, and no theorem here depends on a bracketed netloc.) *)
Definition netloc (url : string) : option string :=
  let n := fst (split_netloc (snd (split_scheme (sanitize url)))) in
  if Bool.eqb (contains "[" n) (contains "]" n) then Some n else None.

(** A model of [urljoin(base, url)] for the references of the examples:
    absolute URLs, scheme-relative, host-relative and path-relative
    references without dot segments, queries, fragments, control
    characters or spaces. The theorems about [extract_dom] take [urljoin]
    as an arbitrary function; this one only evaluates the examples. *)
Fixpoint last_slash_prefix (s : string) : string :=
  (* the longest prefix of [s] ending in [/] *)
  match s with
  | EmptyString => ""
  | String c r =>
      let p := last_slash_prefix r in
      if String.eqb p "" then (if Ascii.eqb c "/" then "/" else "") else String c p
  end.

Definition urljoin (base url : string) : string :=
  if String.eqb base "" then url else
  if String.eqb url "" then base else
  match split_scheme url with
  | (Some _, _) => url
  | (None, _) =>
      let (bsch, brest) := split_scheme base in
      let sch := match bsch with Some s => s | None => "" end in
      let (bnet, bpath) := split_netloc brest in
      if startswith "//" url then sch ++ ":" ++ url
      else if startswith "/" url then sch ++ "://" ++ bnet ++ url
      else sch ++ "://" ++ bnet ++
             (if String.eqb (last_slash_prefix bpath) "" then "/" else last_slash_prefix bpath) ++ url
  end.

(** A host with none of the characters that end a netloc ([/], [?], [#])
    or make [urlsplit] reject it ([[], []]). *)
Definition netloc_delims : list ascii := ["/"; "?"; "#"; "["; "]"]%char.

Definition plain_host (h : string) : bool :=
  forallb (fun c => negb (existsb (Ascii.eqb c) netloc_delims)) (list_ascii_of_string h).

End Url.

(* ------------------------------------------------------------------ *)
(** ** Parsed documents (BeautifulSoup) *)

Module Dom.

(** An element: tag name, attributes in source order, children. Text nodes
    carry nothing the extraction reads and are left out. *)
Inductive node : Type :=
| Elem (name : string) (attrs : list (string * string)) (kids : list node).

Definition attrs_of (n : node) : list (string * string) :=
  match n with Elem _ a _ => a end.

Definition name_of (n : node) : string :=
  match n with Elem nm _ _ => nm end.

(** [tag.get(k)] *)
Fixpoint get (k : string) (a : list (string * string)) : option string :=
  match a with
  | [] => None
  | (k', v) :: r => if String.eqb k k' then Some v else get k r
  end.

(** [x or y] where [x] is an optional string and [y] a string *)
Definition py_or (x : option string) (y : string) : string :=
  match x with
  | Some s => if String.eqb s "" then y else s
  | None => y
  end.

(** Every descendant in document order, with the names of its ancestors
    (nearest first, the document itself last). *)
Fixpoint descendants (anc : list string) (n : node) {struct n} : list (list string * node) :=
  match n with
  | Elem nm _ kids =>
      let anc' := nm :: anc in
      (fix go (ks : list node) : list (list string * node) :=
         match ks with
         | [] => []
         | k :: ks' => (((anc', k) :: descendants anc' k) ++ go ks')%list
         end) kids
  end.

(** [soup.find_all(name)] *)
Definition find_all (name : string) (n : node) : list (list string * node) :=
  filter (fun p => String.eqb (name_of (snd p)) name) (descendants [] n).

(** [soup.find_all(attrs={k: True})] *)
Definition find_all_with_attr (k : string) (n : node) : list (list string * node) :=
  filter (fun p => match get k (attrs_of (snd p)) with Some _ => true | None => false end)
    (descendants [] n).

(** [tag.find_parent(["header", "nav"]) is not None] *)
Definition in_header_or_nav (anc : list string) : bool :=
  existsb (fun a => String.eqb a "header" || String.eqb a "nav") anc.

(** A parsed page: [BeautifulSoup(html, "html.parser")] *)
Definition soup (kids : list node) : node := Elem "[document]" [] kids.

End Dom.

(* ------------------------------------------------------------------ *)
(** ** [extract_dom.py] *)

Module Extract.
Import Dom.

Definition TRACKER_HOST_SUBSTRINGS : list string :=
  ["google-analytics.com"; "tealiumiq.com"; "doubleclick.net";
   "googletagmanager.com"; "facebook.com/tr"; "connect.facebook.net"].

Definition _is_tracker (url : string) : bool :=
  let u := lower url in
  existsb (fun t => contains t u) TRACKER_HOST_SUBSTRINGS.

(** [_same_domain]; a [ValueError] of [urlparse] answers [False]. *)
Definition _same_domain (asset_url base_url : string) : bool :=
  match Url.netloc asset_url, Url.netloc base_url with
  | Some a, Some b =>
      if String.eqb a "" then true
      else endswith (replace_www (lower b)) (replace_www (lower a))
  | _, _ => false
  end.

(** [(img.get("src") or img.get("data-src") or img.get("data-lazy-src") or "").strip()]
    (src/extract_dom.py) *)
Definition img_src (a : list (string * string)) : string :=
  strip (py_or (get "src" a) (py_or (get "data-src" a) (py_or (get "data-lazy-src" a) ""))).

(** [(img.get("src") or "").strip()] (src/zenrows_scraper/extract_dom.py) *)
Definition img_src_v1 (a : list (string * string)) : string :=
  strip (py_or (get "src" a) "").

Definition BAD_SUBSTRINGS : list string :=
  ["pcmag"; "nerdwallet"; "cybernews"; "award"; "badge"; "review"; "trustpilot"].

Section WithUrljoin.
Variable urljoin : string -> string -> string.

(** The inner [score(img)] of [_pick_logo_img]; [src_of] is the source
    resolution of the version at hand. *)
Definition logo_score (src_of : list (string * string) -> string)
    (base_url brand_hint : string) (img : list string * node) : Z :=
  let '(anc, el) := img in
  let a := attrs_of el in
  let src := src_of a in
  if String.eqb src "" then (-999)%Z else
  let full := urljoin base_url src in
  if _is_tracker full then (-999)%Z else
  let alt := lower (py_or (get "alt" a) "") in
  let title := lower (py_or (get "title" a) "") in
  let cls := lower (join_space (split_ws (py_or (get "class" a) ""))) in
  let full_l := lower full in
  let s := 0%Z in
  let s := if in_header_or_nav anc then (s + 50)%Z else s in
  let s := if negb (String.eqb brand_hint "") &&
              (contains brand_hint alt || contains brand_hint title || contains brand_hint full_l)
           then (s + 40)%Z else s in
  let s := if contains "logo" alt || contains "logo" title || contains "logo" cls ||
              contains "logo" full_l then (s + 20)%Z else s in
  let s := fold_left (fun s bad => if contains bad full_l then (s - 25)%Z else s)
             BAD_SUBSTRINGS s in
  if _same_domain full base_url then (s + 10)%Z else s.

(** The selection loop of [_pick_logo_img]: [if sc > best_score]. *)
Fixpoint pick_loop {A : Type} (score : A -> Z) (url : A -> string)
    (imgs : list A) (best_url : option string) (best_score : Z) : option string * Z :=
  match imgs with
  | [] => (best_url, best_score)
  | img :: r =>
      let sc := score img in
      if (best_score <? sc)%Z then pick_loop score url r (Some (url img)) sc
      else pick_loop score url r best_url best_score
  end.

Definition pick_logo_with (src_of : list (string * string) -> string)
    (doc : node) (base_url brand_hint : string) : option string :=
  let brand_hint := lower brand_hint in
  let '(best_url, best_score) :=
    pick_loop (logo_score src_of base_url brand_hint)
      (fun img => urljoin base_url (src_of (attrs_of (snd img))))
      (find_all "img" doc) None (-999)%Z in
  if (0 <=? best_score)%Z then best_url else None.

(** [_pick_logo_img] of src/extract_dom.py *)
Definition _pick_logo_img := pick_logo_with img_src.

(** [_pick_logo_img] of src/zenrows_scraper/extract_dom.py *)
Definition _pick_logo_img_v1 := pick_logo_with img_src_v1.

Definition _normalize_media_url (u base_url : string) : option string :=
  if String.eqb u "" then None else
  let u := strip u in
  if String.eqb u "" then None else
  if startswith "data:" u then None else
  Some (urljoin base_url u).

Inductive embed : Type :=
| Vidyard (uuid embedUrl : string) (thumbUrl : option string)
| MetaEmbed (property url : string).

Definition VIDEO_EXTS : list string := [".mp4"; ".webm"; ".m3u8"; ".mov"].

Definition is_video_url (nu : string) : bool :=
  existsb (fun ext => contains ext (lower nu)) VIDEO_EXTS.

(** [direct.add(nu)] on the Python set [direct] *)
Definition set_add (x : string) (s : list string) : list string :=
  if mem x s then s else (s ++ [x])%list.

Definition add_candidates (base_url : string) (cands : list (option string))
    (direct : list string) : list string :=
  fold_left (fun d c =>
      match _normalize_media_url (py_or c "") base_url with
      | Some nu => if is_video_url nu then set_add nu d else d
      | None => d
      end) cands direct.

Definition VIDEO_ATTRS : list string :=
  ["data-src"; "data-source"; "data-video"; "data-video-src"; "data-mp4";
   "data-webm"; "data-d1600"; "data-t768"; "data-m521"; "data-m415"; "data-m"].

(** Step 1 for one [<video>]: its own candidates, then its [<source>]s. *)
Definition video_tag_step (base_url : string) (direct : list string) (v : node) : list string :=
  let a := attrs_of v in
  let cands :=
    ([get "src" a] ++ map (fun k => get k a) VIDEO_ATTRS ++
     map (fun kv => Some (snd kv))
       (filter (fun kv => startswith "data-" (fst kv) &&
                  (contains ".mp4" (lower (snd kv)) || contains ".webm" (lower (snd kv)) ||
                   contains ".m3u8" (lower (snd kv)))) a))%list in
  let direct := add_candidates base_url cands direct in
  fold_left (fun d src =>
      let sa := attrs_of (snd src) in
      add_candidates base_url [get "src" sa; get "data-src" sa; get "data-source" sa] d)
    (find_all "source" v) direct.

Definition META_VIDEO_PROPS : list string :=
  ["og:video"; "og:video:url"; "twitter:player"; "twitter:player:stream"].

(** [_collect_video_urls]. The Python set [direct] is a list here, in
    insertion order; the order of [list(direct)] in Python depends on string
    hashing, so only membership in the first component is meaningful. *)
Definition _collect_video_urls (doc : node) (base_url : string) : list string * list embed :=
  let direct := fold_left (fun d v => video_tag_step base_url d (snd v)) (find_all "video" doc) [] in
  let direct := fold_left (fun d a =>
      match _normalize_media_url (py_or (get "href" (attrs_of (snd a))) "") base_url with
      | Some nu => if is_video_url nu then set_add nu d else d
      | None => d
      end) (find_all "a" doc) direct in
  let embeds := flat_map (fun t =>
      let a := attrs_of (snd t) in
      let uuid := strip (py_or (get "data-vid-uuid" a) "") in
      if String.eqb uuid "" then []
      else
        let thumb := match get "data-src" a with
                     | Some s => if String.eqb s "" then get "src" a else Some s
                     | None => get "src" a end in
        [Vidyard uuid ("https://play.vidyard.com/" ++ uuid ++ ".html")
                 (_normalize_media_url (py_or thumb "") base_url)])
      (find_all_with_attr "data-vid-uuid" doc) in
  let '(direct, embeds) := fold_left (fun acc m =>
      let '(d, e) := acc in
      let a := attrs_of (snd m) in
      let prop := lower (py_or (get "property" a) (py_or (get "name" a) "")) in
      if mem prop META_VIDEO_PROPS then
        match _normalize_media_url (py_or (get "content" a) "") base_url with
        | Some nu => if is_video_url nu then (set_add nu d, e)
                     else (d, (e ++ [MetaEmbed prop nu])%list)
        | None => (d, e)
        end
      else (d, e)) (find_all "meta" doc) (direct, embeds) in
  (Dedupe._dedupe direct, embeds).

(** The fields of [extract_dom]'s result that the claims read. *)
Record asset_bundle := {
  logo_url : option string;
  image_urls : list string;
  video_urls : list string;
  video_embeds : list embed
}.

Definition brand_hint_of (base_url : string) : string :=
  before_dot (replace_www (match Url.netloc base_url with Some n => n | None => "" end)).

Definition collect_image_urls (doc : node) (base_url : string) : list string :=
  Dedupe._dedupe
    (flat_map (fun img =>
       let src := img_src (attrs_of (snd img)) in
       if String.eqb src "" then []
       else let full := urljoin base_url src in
            if _is_tracker full then [] else [full])
     (find_all "img" doc)).

(** [extract_dom(html, base_url)] of src/extract_dom.py, on the parsed
    document. [urlparse(base_url)] raising is not modelled: [brand_hint_of]
    reads an unparsable netloc as empty. *)
Definition extract_dom (doc : node) (base_url : string) : asset_bundle :=
  let brand_hint := brand_hint_of base_url in
  let '(vids, embeds) := _collect_video_urls doc base_url in
  {| logo_url := _pick_logo_img doc base_url brand_hint;
     image_urls := collect_image_urls doc base_url;
     video_urls := vids;
     video_embeds := embeds |}.

End WithUrljoin.

End Extract.

(* ------------------------------------------------------------------ *)
(** ** Downloads (src/run_brand_scrape.py) *)

Module Download.

Definition byte := Byte.byte.

(** The asset paths [scrape_brand_report] writes to. *)
Inductive path : Type :=
| ImgTmp (idx : nat)                 (* assets_dir / f"img_{idx}.bin" *)
| ImgFinal (idx : nat) (ext : string) (* assets_dir / f"img_{idx}.{ext}" *)
| VidTmp (idx : nat)                 (* videos_dir / f"video_{idx}.bin" *)
| VidFinal (idx : nat) (ext : string). (* videos_dir / f"video_{idx}.{ext}" *)

(** What [requests.get] hands back: [r.status_code], [r.url], the
    [Content-Type] header and the body as [iter_content] yields it. *)
Record response := {
  status_code : Z;
  final_url : string;
  content_type_header : option string;
  chunks : list (list byte)
}.

(** [requests.get(url, ..., headers=...)]: the server answers a URL and the
    end of the requested byte range (the [Range] header, when sent); [inl]
    is a raised exception. *)
Definition server := string -> option Z -> string + response.

(** [r.raise_for_status()] *)
Definition raise_for_status (r : response) : option string :=
  if (400 <=? status_code r)%Z && (status_code r <? 600)%Z then Some "HTTPError" else None.

Fixpoint before_semicolon (s : string) : string :=
  match s with
  | String ";" _ => EmptyString
  | String c r => String c (before_semicolon r)
  | EmptyString => EmptyString
  end.

(** [(r.headers.get("Content-Type") or "").split(";")[0].strip().lower()] *)
Definition content_type_of (r : response) : string :=
  lower (strip (before_semicolon (match content_type_header r with Some s => s | None => "" end))).

(** The result dictionaries; [capped] and [max_bytes] are [None] where the
    key is absent. *)
Record fetch_result := {
  requested_url : string;
  fr_final_url : string;
  status : Z;
  content_type : string;
  bytes : Z;
  fr_path : path;
  capped : option bool;
  max_bytes : option Z
}.

Definition zlen {A} (l : list A) : Z := Z.of_nat (length l).

(** [download(url, out_path)]: the result and the bytes written. *)
Definition download (get : server) (url : string) (out_path : path)
    : string + (fetch_result * list byte) :=
  match get url None with
  | inl e => inl e
  | inr r =>
      match raise_for_status r with
      | Some e => inl e
      | None =>
          let content := concat (chunks r) in
          inr ({| requested_url := url; fr_final_url := final_url r;
                  status := status_code r; content_type := content_type_of r;
                  bytes := zlen content; fr_path := out_path;
                  capped := None; max_bytes := None |}, content)
      end
  end.

(** The [with open(out_path, "wb")] loop of [download_stream_capped]:
    returns [total] and the bytes written. *)
Fixpoint stream_loop (max_bytes : Z) (total : Z) (written : list byte)
    (cs : list (list byte)) : Z * list byte :=
  match cs with
  | [] => (total, written)
  | chunk :: r =>
      match chunk with
      | [] => stream_loop max_bytes total written r          (* if not chunk: continue *)
      | _ =>
          let total := (total + zlen chunk)%Z in
          if (max_bytes <? total)%Z then (total, written)       (* break *)
          else stream_loop max_bytes total (written ++ chunk) r  (* f.write(chunk) *)
      end
  end.

(** [download_stream_capped(url, out_path, max_bytes)]; the request carries
    [Range: bytes=0-{max_bytes - 1}]. *)
Definition download_stream_capped (get : server) (url : string) (out_path : path)
    (max_bytes : Z) : string + (fetch_result * list byte) :=
  match get url (Some (max_bytes - 1)%Z) with
  | inl e => inl e
  | inr r =>
      match raise_for_status r with
      | Some e => inl e
      | None =>
          let '(total, written) := stream_loop max_bytes 0 [] (chunks r) in
          inr ({| requested_url := url; fr_final_url := final_url r;
                  status := status_code r; content_type := content_type_of r;
                  bytes := total; fr_path := out_path;
                  capped := Some true; max_bytes := Some max_bytes |}, written)
      end
  end.

Definition VIDEO_MAX_BYTES : Z := 35 * 1024 * 1024.

(** A server that ignores the [Range] header and sends two bytes. *)
Definition two_byte_server : server :=
  fun _ _ => inr {| status_code := 200; final_url := "https://acme.com/clip.mp4";
                    content_type_header := Some "video/mp4";
                    chunks := [[Byte.x00; Byte.x01]] |}.

End Download.

(* ------------------------------------------------------------------ *)
(** ** The retry loop of [zenrows_get] (src/zenrows_fetch.py and
    src/zenrows_scraper/zenrows_fetch.py, identical in both) *)

Module Fetch.

Inductive exn : Type :=
| HTTPError (code : Z)          (* raised by r.raise_for_status() *)
| TransportError (what : string). (* raised by requests.get *)

(** The outcome of the n-th [requests.get]. *)
Inductive get_outcome : Type :=
| Responded (status : Z)
| Raised (e : exn).

(** [return r], or [raise RuntimeError(...) from last_err]. *)
Inductive result : Type :=
| Returned (status : Z)
| Failed (cause : option exn).

Definition RETRY_STATUSES : list Z := [429; 500; 502; 503; 504]%Z.

(** [time.sleep(min(20, 2 ** attempt) + random.uniform(0, 0.5))]; [jitter n]
    is the n-th value drawn. *)
Definition backoff (jitter : nat -> Q) (attempt : nat) : Q :=
  (inject_Z (Z.min 20 (2 ^ Z.of_nat attempt)) + jitter attempt)%Q.

(** [for attempt in range(...)]: the sleeps taken and the outcome. *)
Fixpoint retry_loop (srv : nat -> get_outcome) (jitter : nat -> Q)
    (attempt fuel : nat) (last_err : option exn) : list Q * result :=
  match fuel with
  | O => ([], Failed last_err)
  | S fuel' =>
      match srv attempt with
      | Responded st =>
          if existsb (Z.eqb st) RETRY_STATUSES then
            let '(sl, res) := retry_loop srv jitter (S attempt) fuel' last_err in
            (backoff jitter attempt :: sl, res)                  (* continue *)
          else if (400 <=? st)%Z && (st <? 600)%Z then
            let '(sl, res) := retry_loop srv jitter (S attempt) fuel' (Some (HTTPError st)) in
            (backoff jitter attempt :: sl, res)                  (* except *)
          else ([], Returned st)
      | Raised e =>
          let '(sl, res) := retry_loop srv jitter (S attempt) fuel' (Some e) in
          (backoff jitter attempt :: sl, res)                    (* except *)
      end
  end.

Definition zenrows_get (srv : nat -> get_outcome) (jitter : nat -> Q) (max_retries : Z)
    : list Q * result :=
  retry_loop srv jitter 0 (Z.to_nat max_retries) None.

Definition srv_503_503_200 (n : nat) : get_outcome :=
  match n with
  | 0 | 1 => Responded 503
  | _ => Responded 200
  end.

Definition srv_all_500 (_ : nat) : get_outcome := Responded 500.

End Fetch.

(* ------------------------------------------------------------------ *)
(** ** The per-asset loops of [scrape_brand_report] (src/run_brand_scrape.py) *)

Module Orchestrator.
Import Download.

(** [choose_top_images]: [sorted(..., key=score, reverse=True)[:limit]];
    Python's sort is stable, also with [reverse=True]. *)
Definition image_score (u : string) : Z :=
  let ul := lower u in
  let s := fold_left (fun s good => if contains good ul then (s + 20)%Z else s)
             ["hero"; "banner"; "masthead"; "header"; "main"; "home"; "slide"; "carousel"] 0%Z in
  let s := fold_left (fun s bad => if contains bad ul then (s - 20)%Z else s)
             ["logo"; "icon"; "sprite"; "badge"; "award"; "pixel"; "tracking"] s in
  if existsb (fun ext => endswith ext ul) [".jpg"; ".jpeg"; ".png"; ".webp"]
  then (s + 5)%Z else s.

Definition video_score (u : string) : Z :=
  let ul := lower u in
  let s := if contains ".mp4" ul then 50%Z else 0%Z in
  let s := if contains ".webm" ul then (s + 30)%Z else s in
  let s := if contains ".m3u8" ul then (s - 10)%Z else s in
  fold_left (fun s good => if contains good ul then (s + 10)%Z else s)
    ["hero"; "ambient"; "banner"; "masthead"] s.

(** Insert after every element of higher or equal score: a stable
    descending sort when fed the input from left to right. *)
Fixpoint insert_desc (score : string -> Z) (x : string) (l : list string) : list string :=
  match l with
  | [] => [x]
  | y :: r => if (score x <=? score y)%Z then y :: insert_desc score x r else x :: l
  end.

Definition sorted_desc (score : string -> Z) (l : list string) : list string :=
  fold_left (fun acc x => insert_desc score x acc) l [].

Definition MAX_IMAGES_TO_DOWNLOAD : nat := 10.
Definition MAX_VIDEOS_TO_DOWNLOAD : nat := 2.

Definition choose_top_images (urls : list string) (limit : nat) : list string :=
  firstn limit (sorted_desc image_score urls).

Definition choose_top_videos (urls : list string) (limit : nat) : list string :=
  firstn limit (sorted_desc video_score urls).

(** The effects the loops call besides the network. *)
Record env := {
  http_get : server;
  replace_file : path -> path -> string + unit;           (* tmp.replace(final) *)
  node_palette : path -> string + option string            (* pal.get("vibrant") *)
}.

(** One entry of [downloaded_images] / [downloaded_videos]: [{**meta, ...}]
    or [{"requested_url": ..., "ok": False, "error": ...}]. *)
Record entry := {
  e_requested_url : string;
  e_meta : option fetch_result;
  e_ok : bool;
  e_reason : option string;
  e_error : option string
}.

Record state := {
  downloaded_images : list entry;
  palettes_by_image_url : list (string * (path * option string));
  downloaded_videos : list entry
}.

(** State and exceptions: a raise keeps the mutations done before it. *)
Definition M (A : Type) : Type := state -> state * (string + A).

Definition ret {A} (x : A) : M A := fun s => (s, inr x).
Definition bind {A B} (m : M A) (k : A -> M B) : M B :=
  fun s => match m s with
           | (s', inl e) => (s', inl e)
           | (s', inr x) => k x s'
           end.
Definition lift {A} (r : string + A) : M A := fun s => (s, r).
Definition modify (f : state -> state) : M unit := fun s => (f s, inr tt).
Definition try_except {A} (m : M A) (h : string -> M A) : M A :=
  fun s => match m s with
           | (s', inl e) => h e s'
           | (s', inr x) => (s', inr x)
           end.

Notation "x <- m ;; k" := (bind m (fun x => k)) (at level 61, m at next level, right associativity).
Notation "m ;; k" := (bind m (fun _ => k)) (at level 61, right associativity).

Definition push_image (e : entry) : state -> state :=
  fun s => {| downloaded_images := downloaded_images s ++ [e];
              palettes_by_image_url := palettes_by_image_url s;
              downloaded_videos := downloaded_videos s |}.

Definition push_video (e : entry) : state -> state :=
  fun s => {| downloaded_images := downloaded_images s;
              palettes_by_image_url := palettes_by_image_url s;
              downloaded_videos := downloaded_videos s ++ [e] |}.

(** [palettes_by_image_url[img_url] = ...] *)
Definition set_palette (k : string) (v : path * option string) : state -> state :=
  fun s => {| downloaded_images := downloaded_images s;
              palettes_by_image_url :=
                (filter (fun kv => negb (String.eqb (fst kv) k)) (palettes_by_image_url s) ++ [(k, v)])%list;
              downloaded_videos := downloaded_videos s |}.

Definition with_path (m : fetch_result) (p : path) : fetch_result :=
  {| requested_url := requested_url m; fr_final_url := fr_final_url m; status := status m;
     content_type := content_type m; bytes := bytes m; fr_path := p;
     capped := capped m; max_bytes := max_bytes m |}.

Definition meta_entry (m : fetch_result) (ok : bool) (reason : option string) : entry :=
  {| e_requested_url := requested_url m; e_meta := Some m; e_ok := ok;
     e_reason := reason; e_error := None |}.

Definition error_entry (url err : string) : entry :=
  {| e_requested_url := url; e_meta := None; e_ok := false; e_reason := None; e_error := Some err |}.

Definition RASTER_EXTS : list string := ["png"; "jpg"; "jpeg"; "webp"; "gif"].

(** The [try] body of the image loop. *)
Definition image_body (E : env) (idx : nat) (img_url : string) : M unit :=
  res <- lift (download (http_get E) img_url (ImgTmp idx)) ;;
  let meta := fst res in
  match ContentType.guess_ext_from_content_type (content_type meta) (fr_final_url meta) with
  | None => modify (push_image (meta_entry meta false (Some "unsupported_content_type")))
  | Some ext =>
      lift (replace_file E (ImgTmp idx) (ImgFinal idx ext)) ;;
      let meta := with_path meta (ImgFinal idx ext) in
      modify (push_image (meta_entry meta true None)) ;;
      if mem ext RASTER_EXTS then
        pal <- lift (node_palette E (ImgFinal idx ext)) ;;
        modify (set_palette img_url (ImgFinal idx ext, pal))
      else ret tt
  end.

Fixpoint image_loop (E : env) (idx : nat) (urls : list string) : M unit :=
  match urls with
  | [] => ret tt
  | u :: r =>
      try_except (image_body E idx u) (fun e => modify (push_image (error_entry u e))) ;;
      image_loop E (S idx) r
  end.

(** The [try] body of the video loop. *)
Definition video_body (E : env) (vid_i : nat) (vid_url : string) : M unit :=
  res <- lift (download_stream_capped (http_get E) vid_url (VidTmp vid_i) VIDEO_MAX_BYTES) ;;
  let meta := fst res in
  match ContentType.guess_ext_from_content_type (content_type meta) (fr_final_url meta) with
  | Some ext =>
      lift (replace_file E (VidTmp vid_i) (VidFinal vid_i ext)) ;;
      modify (push_video (meta_entry (with_path meta (VidFinal vid_i ext)) true None))
  | None =>
      modify (push_video (meta_entry meta false (Some "unsupported_or_unknown_content_type")))
  end.

Fixpoint video_loop (E : env) (vid_i : nat) (urls : list string) : M unit :=
  match urls with
  | [] => ret tt
  | u :: r =>
      try_except (video_body E vid_i u) (fun e => modify (push_video (error_entry u e))) ;;
      video_loop E (S vid_i) r
  end.

Definition empty_state : state :=
  {| downloaded_images := []; palettes_by_image_url := []; downloaded_videos := [] |}.

(** Steps [6/8] and [7/8] of [scrape_brand_report] on the extracted URLs. *)
Definition download_assets (E : env) (image_urls video_urls : list string) : state * (string + unit) :=
  (image_loop E 0 (choose_top_images image_urls MAX_IMAGES_TO_DOWNLOAD) ;;
   video_loop E 0 (choose_top_videos video_urls MAX_VIDEOS_TO_DOWNLOAD)) empty_state.

(** A run where the image downloads as PNG and [palette.cjs] fails. *)
Definition palette_fails_env : env :=
  {| http_get := fun url _ =>
       inr {| status_code := 200; final_url := url; content_type_header := Some "image/png";
              chunks := [[Byte.x89; Byte.x50]] |};
     replace_file := fun _ _ => inr tt;
     node_palette := fun _ => inl "palette.cjs failed" |}.

End Orchestrator.

(* ------------------------------------------------------------------ *)
(** ** The specification's reading of logo selection *)

Module LogoSpec.
Import Dom.

Fixpoint list_max_opt (l : list Z) : option Z :=
  match l with
  | [] => None
  | x :: r => match list_max_opt r with
              | None => Some x
              | Some m => Some (Z.max x m)
              end
  end.

(** The first candidate in document order among those of maximal score,
    when that score is at least 0; none otherwise. *)
Definition first_max_choice {A : Type} (score : A -> Z) (url : A -> string)
    (cands : list A) : option string :=
  match list_max_opt (map score cands) with
  | None => None
  | Some m => if (0 <=? m)%Z
              then option_map url (find (fun c => Z.eqb (score c) m) cands)
              else None
  end.

(** An ordered attribute preference list: the first attribute whose value
    is a non-empty string. *)
Fixpoint first_truthy (vals : list (option string)) : string :=
  match vals with
  | [] => ""
  | Some v :: r => if String.eqb v "" then first_truthy r else v
  | None :: r => first_truthy r
  end.

(** Example pages (base URL https://acme.com/). *)
Definition acme_header_logo : node :=
  Elem "img" [("src", "/img/brand.png"); ("alt", "Acme logo")] [].

Definition acme_badge : node :=
  Elem "img" [("src", "/img/seal.png"); ("alt", "Acme award badge")] [].

Definition acme_page : node :=
  soup [Elem "header" [] [acme_header_logo]; acme_badge].

(** The header logo is declared through [srcset] only. *)
Definition acme_srcset_logo : node :=
  Elem "img" [("srcset", "/img/brand.png 1x"); ("alt", "Acme logo")] [].

Definition acme_srcset_page : node :=
  soup [Elem "header" [] [acme_srcset_logo]; acme_badge].

(** The header logo's file name holds two penalty words, and the badge,
    which comes first, carries the class [logo]. *)
Definition acme_review_logo : node :=
  Elem "img" [("src", "/img/review-award-logo.png"); ("alt", "Acme logo")] [].

Definition acme_logo_class_badge : node :=
  Elem "img" [("src", "/img/seal.png"); ("alt", "Acme award badge"); ("class", "logo")] [].

Definition acme_penalised_page : node :=
  soup [acme_logo_class_badge; Elem "header" [] [acme_review_logo]].

(** The header logo is lazy-loaded through [data-src]. *)
Definition acme_lazy_page : node :=
  soup [Elem "header" [] [Elem "img" [("data-src", "/img/logo.png"); ("alt", "Acme")] []]].

(** Tracker URLs reached through a link and a meta declaration. *)
Definition tracker_video_page : node :=
  soup [Elem "a" [("href", "https://ad.doubleclick.net/promo.mp4")] [];
        Elem "meta" [("property", "og:video"); ("content", "https://www.facebook.com/tr?id=1")] []].

End LogoSpec.

(* ------------------------------------------------------------------ *)
(** ** [uniq] (src/run_brand_scrape.py) *)

Module Uniq.

(** [x = (x or "").strip()]; [if not x or x in seen: continue]. A [None]
    entry is [""]. *)
Fixpoint uniq_loop (seen : list string) (seq : list string) : list string :=
  match seq with
  | [] => []
  | x :: r =>
      let x := strip x in
      if String.eqb x "" || mem x seen then uniq_loop seen r
      else x :: uniq_loop (x :: seen) r
  end.

Definition uniq (seq : list string) : list string := uniq_loop [] seq.

End Uniq.

(* ------------------------------------------------------------------ *)
(** ** [choose_top_images] of src/zenrows_scraper/run_brand_scrape.py *)

Module TopImagesV1.
Import Orchestrator.

(** Its inner [score(u)]. *)
Definition image_score_v1 (u : string) : Z :=
  let ul := lower u in
  let s := fold_left (fun s k => if contains k ul then (s + 20)%Z else s)
             ["hero"; "banner"; "masthead"; "header"; "main"; "home"; "slide"] 0%Z in
  let s := fold_left (fun s k => if contains k ul then (s - 20)%Z else s)
             ["logo"; "icon"; "sprite"; "badge"; "award"; "tracking"; "pixel"] s in
  if existsb (fun ext => endswith ext ul) [".jpg"; ".jpeg"; ".png"; ".webp"]
  then (s + 5)%Z else s.

(** The loop over [ranked]: skip seen URLs, [out.append(u)], then
    [if len(out) >= limit: break]; [n] is [len(out)] before the append. *)
Fixpoint take_unique (limit : Z) (seen : list string) (n : nat) (ranked : list string)
    : list string :=
  match ranked with
  | [] => []
  | u :: r =>
      if mem u seen then take_unique limit seen n r
      else if (limit <=? Z.of_nat (S n))%Z then [u]
      else u :: take_unique limit (u :: seen) (S n) r
  end.

(** [limit] is a Python [int] and may be zero or negative. *)
Definition choose_top_images_v1 (image_urls : list string) (limit : Z) : list string :=
  take_unique limit [] 0 (sorted_desc image_score_v1 image_urls).

End TopImagesV1.

(* ------------------------------------------------------------------ *)
(** ** Colours of src/zenrows_scraper/run_brand_scrape.py *)

Module Contrast.

Definition hex_digit (c : ascii) : option Z :=
  let n := Z.of_nat (nat_of_ascii c) in
  if (48 <=? n)%Z && (n <=? 57)%Z then Some (n - 48)%Z
  else if (97 <=? n)%Z && (n <=? 102)%Z then Some (n - 87)%Z
  else if (65 <=? n)%Z && (n <=? 70)%Z then Some (n - 55)%Z
  else None.

(** The digits of [int(s, 16)]; an underscore may sit between two digits.
    Returns the value and the text after the digits. *)
Fixpoint digits16 (acc : Z) (s : string) : Z * string :=
  match s with
  | EmptyString => (acc, EmptyString)
  | String c r =>
      match hex_digit c with
      | Some d => digits16 (16 * acc + d)%Z r
      | None =>
          match c, r with
          | "_"%char, String c2 r2 =>
              match hex_digit c2 with
              | Some d => digits16 (16 * acc + d)%Z r2
              | None => (acc, s)
              end
          | _, _ => (acc, s)
          end
      end
  end.

(** [int(s, 16)]; [None] where it raises [ValueError]. Leading whitespace,
    an optional sign, an optional [0x]/[0X] prefix followed by at most one
    underscore, at least one digit, trailing whitespace. *)
Definition int16 (s : string) : option Z :=
  let s := lstrip s in
  let '(neg, s) := match s with
                   | String "-" r => (true, r)
                   | String "+" r => (false, r)
                   | _ => (false, s)
                   end in
  let s := match s with
           | String "0" (String x r) =>
               if Ascii.eqb x "x" || Ascii.eqb x "X" then
                 match r with String "_" r' => r' | _ => r end
               else s
           | _ => s
           end in
  match s with
  | String c r =>
      match hex_digit c with
      | Some d =>
          let '(v, rest) := digits16 d r in
          if String.eqb (lstrip rest) "" then Some (if neg then (- v)%Z else v) else None
      | None => None
      end
  | EmptyString => None
  end.

(** [s.lstrip("#")] *)
Fixpoint lstrip_hash (s : string) : string :=
  match s with
  | String "#" r => lstrip_hash r
  | _ => s
  end.

(** [''.join([c * 2 for c in h])] *)
Fixpoint double_chars (s : string) : string :=
  match s with
  | EmptyString => EmptyString
  | String c r => String c (String c (double_chars r))
  end.

Definition rgb : Type := (Z * Z * Z)%type.

(** [hex_to_rgb(hex_color)]; a [None] argument is [""]. *)
Definition hex_to_rgb (hex_color : string) : option rgb :=
  if String.eqb hex_color "" then None else
  let h := lstrip_hash (strip hex_color) in
  let h := if (String.length h =? 3)%nat then double_chars h else h in
  if negb (String.length h =? 6)%nat then None else
  match int16 (substring 0 2 h), int16 (substring 2 2 h), int16 (substring 4 2 h) with
  | Some r, Some g, Some b => Some (r, g, b)
  | _, _, _ => None
  end.

(** One entry of [build_contrast_checks]. *)
Record check := {
  fg : string;
  bg : string;
  ratio : Q;
  passesAA : bool;
  passesAAA : bool
}.

Section WithRatio.
(** [contrast_ratio] (floating-point luminances) and [round(x, 2)]. *)
Variable contrast_ratio : rgb -> rgb -> Q.
Variable round2 : Q -> Q.

Definition fg_candidates : list string := ["#000000"; "#FFFFFF"].

(** [build_contrast_checks(palette_hex)]; a tuple is always truthy, so only
    a [None] from [hex_to_rgb] skips. *)
Definition build_contrast_checks (palette_hex : list string) : list check :=
  flat_map (fun bgc =>
    match hex_to_rgb bgc with
    | None => []
    | Some bg_rgb =>
        flat_map (fun fgc =>
          match hex_to_rgb fgc with
          | None => []
          | Some fg_rgb =>
              let r := contrast_ratio fg_rgb bg_rgb in
              [{| fg := fgc; bg := bgc; ratio := round2 r;
                  passesAA := Qle_bool (45 # 10)%Q r; passesAAA := Qle_bool 7%Q r |}]
          end) fg_candidates
    end) (firstn 8 palette_hex).

End WithRatio.

(** [_srgb_to_linear], [relative_luminance] and [contrast_ratio] of
    src/zenrows_scraper/run_brand_scrape.py in exact rational arithmetic
    (floating-point rounding is not modelled); [pow24] is [x ** 2.4]. *)
Section Luminance.
Variable pow24 : Q -> Q.

Definition _srgb_to_linear (c : Q) : Q :=
  let c := (c / 255)%Q in
  if Qle_bool c (4045 # 100000) then (c / (1292 # 100))%Q
  else pow24 ((c + (55 # 1000)) / (1055 # 1000))%Q.

Definition relative_luminance (rgb : rgb) : Q :=
  let '(r, g, b) := rgb in
  let R := _srgb_to_linear (inject_Z r) in
  let G := _srgb_to_linear (inject_Z g) in
  let B := _srgb_to_linear (inject_Z b) in
  ((2126 # 10000) * R + (7152 # 10000) * G + (722 # 10000) * B)%Q.

Definition contrast_ratio (rgb1 rgb2 : rgb) : Q :=
  let L1 := relative_luminance rgb1 in
  let L2 := relative_luminance rgb2 in
  let lighter := Qmax L1 L2 in
  let darker := Qmin L1 L2 in
  ((lighter + (5 # 100)) / (darker + (5 # 100)))%Q.

End Luminance.

End Contrast.

(* ------------------------------------------------------------------ *)
(** ** [_pick_inline_logo_svg] (both versions of extract_dom.py) *)

Module InlineSvg.
Import Dom.

(** [list.sort(key=..., reverse=True)], stable: insert after every element
    of higher or equal key. *)
Fixpoint insert_desc_by {A : Type} (score : A -> Z) (x : A) (l : list A) : list A :=
  match l with
  | [] => [x]
  | y :: r => if (score x <=? score y)%Z then y :: insert_desc_by score x r else x :: l
  end.

Definition sort_desc_by {A : Type} (score : A -> Z) (l : list A) : list A :=
  fold_left (fun acc x => insert_desc_by score x acc) l [].

(** [x] comes no later than [y] in a descending order of [f]. *)
Definition desc_by {A : Type} (f : A -> Z) (x y : A) : Prop := (f y <= f x)%Z.

(** ['logo' in cls or 'logo' in sid or 'logo' in aria] *)
Definition is_logo_svg (a : list (string * string)) : bool :=
  let cls := lower (join_space (split_ws (py_or (get "class" a) ""))) in
  let sid := lower (py_or (get "id" a) "") in
  let aria := lower (py_or (get "aria-label" a) "") in
  contains "logo" cls || contains "logo" sid || contains "logo" aria.

(** [svg_score(svg)] *)
Definition svg_score (svg : list string * node) : Z :=
  let s := if in_header_or_nav (fst svg) then 50%Z else 0%Z in
  match find_all "title" (snd svg) with
  | [] => s
  | _ => (s + 10)%Z
  end.

(** [_pick_inline_logo_svg(soup)]; the chosen element stands for its
    serialisation [str(candidates[0])]. *)
Definition _pick_inline_logo_svg (doc : node) : option node :=
  let candidates := filter (fun svg => is_logo_svg (attrs_of (snd svg))) (find_all "svg" doc) in
  match candidates with
  | [] => None
  | _ => match sort_desc_by svg_score candidates with
         | c :: _ => Some (snd c)
         | [] => None
         end
  end.

End InlineSvg.

(* ------------------------------------------------------------------ *)
(** ** The fallback ladder of [fetch_rendered_html]
    (src/zenrows_scraper/zenrows_fetch.py) *)

Module FetchLadder.
Import Fetch.

(** [return r.text], or [raise RuntimeError(...) from last_err]; a set
    [last_err] is the [RuntimeError] of a [zenrows_get], chained from the
    [cause] it holds. *)
Inductive html_result : Type :=
| HtmlReturned (cfg : bool * bool) (status : Z)
| HtmlFailed (last_err : option (option exn)).

(** [attempts]: [(js_render, premium_proxy)] *)
Definition HTML_ATTEMPTS : list (bool * bool) :=
  [(true, true); (true, false); (false, false)].

(** [srv cfg n] answers the n-th request sent with configuration [cfg];
    [jitter i] draws the jitters of the i-th configuration. Each
    configuration runs [zenrows_get(..., max_retries=2)]. *)
Fixpoint ladder (srv : bool * bool -> nat -> get_outcome) (jitter : nat -> nat -> Q)
    (i : nat) (cfgs : list (bool * bool)) (last_err : option (option exn))
    : list Q * html_result :=
  match cfgs with
  | [] => ([], HtmlFailed last_err)
  | cfg :: r =>
      let '(sl, res) := zenrows_get (srv cfg) (jitter i) 2 in
      match res with
      | Returned st => (sl, HtmlReturned cfg st)
      | Failed cause =>
          let '(sl', res') := ladder srv jitter (S i) r (Some cause) in
          ((sl ++ sl')%list, res')
      end
  end.

Definition fetch_rendered_html_v1 (srv : bool * bool -> nat -> get_outcome)
    (jitter : nat -> nat -> Q) : list Q * html_result :=
  ladder srv jitter 0 HTML_ATTEMPTS None.

End FetchLadder.

(* ------------------------------------------------------------------ *)
(** ** What the download loops of [scrape_brand_report] leave behind *)

Module DownloadShape.
Import Download Orchestrator.

(** The entries one iteration of the image loop appends for [img_url] at
    position [idx]: a single entry (downloaded and renamed, unsupported
    content type, or the error of a failed step), or the success entry of a
    raster image followed by the error of its failed palette. *)
Definition image_block (idx : nat) (img_url : string) (b : list entry) : Prop :=
  (exists e, b = [e] /\ e_requested_url e = img_url /\
     (e_ok e = true -> exists ext, option_map fr_path (e_meta e) = Some (ImgFinal idx ext))) \/
  (exists e err, b = [e; error_entry img_url err] /\ e_ok e = true /\ e_requested_url e = img_url /\
     exists ext, mem ext RASTER_EXTS = true /\ option_map fr_path (e_meta e) = Some (ImgFinal idx ext)).

(** The entry the video loop appends for [vid_url] at position [vid_i]. *)
Definition video_entry (vid_i : nat) (vid_url : string) (e : entry) : Prop :=
  e_requested_url e = vid_url /\
  (e_ok e = true -> exists ext, option_map fr_path (e_meta e) = Some (VidFinal vid_i ext)).

(** A palette stored under [k] belongs to a successful raster download of
    [k] recorded in [imgs], at the same final path. *)
Definition palette_backed (imgs : list entry) (k : string) (v : path * option string) : Prop :=
  exists e i ext, In e imgs /\ e_ok e = true /\ e_requested_url e = k /\
    mem ext RASTER_EXTS = true /\ option_map fr_path (e_meta e) = Some (ImgFinal i ext) /\
    fst v = ImgFinal i ext.

(** The palette map as a state invariant, for the image URLs [top]. *)
Definition pal_inv (top : list string) (s : state) : Prop :=
  NoDup (map fst (palettes_by_image_url s)) /\
  forall k v, In (k, v) (palettes_by_image_url s) -> In k top /\ palette_backed (downloaded_images s) k v.

End DownloadShape.

(* ------------------------------------------------------------------ *)
(** ** Step 6 of [scrape_brand_report] in src/zenrows_scraper/run_brand_scrape.py

    Its [download] differs from the one of src/run_brand_scrape.py only in
    the request headers, which the [server] oracle does not see; it reports
    the same keys. *)

Module ImageLoopV1.
Import Download Orchestrator TopImagesV1.

Definition SUPPORTED_CT : list (string * string) :=
  [("image/png", "png"); ("image/jpeg", "jpg"); ("image/jpg", "jpg");
   ("image/gif", "gif"); ("image/bmp", "bmp")].

(** The [try] body of the image loop: [ext = SUPPORTED_CT.get(...)],
    [if not ext or meta["bytes"] == 0: ... continue], [os.replace],
    the success entry, then [node_palette(final)] for every success. *)
Definition image_body_v1 (E : env) (idx : nat) (img_url : string) : M unit :=
  res <- lift (download (http_get E) img_url (ImgTmp idx)) ;;
  let meta := fst res in
  match ContentType.lookup (content_type meta) SUPPORTED_CT with
  | None => modify (push_image (meta_entry meta false (Some "unsupported_content_type")))
  | Some ext =>
      if (bytes meta =? 0)%Z
      then modify (push_image (meta_entry meta false (Some "unsupported_content_type")))
      else
        lift (replace_file E (ImgTmp idx) (ImgFinal idx ext)) ;;
        let meta := with_path meta (ImgFinal idx ext) in
        modify (push_image (meta_entry meta true None)) ;;
        pal <- lift (node_palette E (ImgFinal idx ext)) ;;
        modify (set_palette img_url (ImgFinal idx ext, pal))
  end.

Fixpoint image_loop_v1 (E : env) (idx : nat) (urls : list string) : M unit :=
  match urls with
  | [] => ret tt
  | u :: r =>
      try_except (image_body_v1 E idx u) (fun e => modify (push_image (error_entry u e))) ;;
      image_loop_v1 E (S idx) r
  end.

(** [top_images = choose_top_images(dom.get("image_urls") or [], limit=10)]
    and the loop, from empty [downloaded_images] and [palettes_by_image_url]. *)
Definition download_images_v1 (E : env) (image_urls : list string) : state * (string + unit) :=
  image_loop_v1 E 0 (choose_top_images_v1 image_urls 10) empty_state.

(** A success entry of this loop: a non-empty download with a supported
    content type, renamed to [img_<idx>.<ext>]. *)
Definition ok_v1 (idx : nat) (e : entry) : Prop :=
  exists m ext, e_meta e = Some m /\ (0 < bytes m)%Z /\
    ContentType.lookup (content_type m) SUPPORTED_CT = Some ext /\ fr_path m = ImgFinal idx ext.

(** The entries one iteration appends for [img_url] at position [idx]. *)
Definition image_block_v1 (idx : nat) (img_url : string) (b : list entry) : Prop :=
  (exists e, b = [e] /\ e_requested_url e = img_url /\ (e_ok e = true -> ok_v1 idx e)) \/
  (exists e err, b = [e; error_entry img_url err] /\ e_ok e = true /\
     e_requested_url e = img_url /\ ok_v1 idx e).

(** The palette map as a state invariant, for the image URLs [top]. *)
Definition pal_inv_v1 (top : list string) (s : state) : Prop :=
  NoDup (map fst (palettes_by_image_url s)) /\
  forall k v, In (k, v) (palettes_by_image_url s) -> In k top /\
    exists e i ext, In e (downloaded_images s) /\ e_ok e = true /\ e_requested_url e = k /\
      ok_v1 i e /\ option_map fr_path (e_meta e) = Some (ImgFinal i ext) /\ fst v = ImgFinal i ext.

End ImageLoopV1.

(** A string that [lstrip] leaves as it is: empty or not starting with
    whitespace. *)
Definition lead_ok (s : string) : bool :=
  match s with String c _ => negb (is_space c) | EmptyString => true end.

(* ================================================================== *)
(** * Proofs *)

Module DedupeFacts.
Import Dedupe.

Lemma mem_cons x y l : mem x (y :: l) = String.eqb x y || mem x l.
Proof. reflexivity. Qed.

Lemma mem_app x l1 l2 : mem x (l1 ++ l2) = mem x l1 || mem x l2.
Proof. unfold mem. now rewrite existsb_app. Qed.

Lemma mem_In x l : mem x l = true <-> In x l.
Proof.
  unfold mem. rewrite existsb_exists. split.
  - intros [y [Hy Heq]]. apply String.eqb_eq in Heq. now subst.
  - intros H. exists x. split; [assumption | apply String.eqb_refl].
Qed.

Lemma dedupe_loop_first_seen seen before l :
  (forall x, x <> "" -> mem x seen = mem x before) ->
  dedupe_loop seen l = first_seen_from before l.
Proof.
  revert seen before. induction l as [|u r IH]; intros seen before Hinv; [reflexivity|].
  simpl. destruct (String.eqb_spec u "") as [He|Hne]; simpl.
  - apply IH. intros x Hx. rewrite mem_app, Hinv by assumption. simpl.
    destruct (String.eqb_spec x u); [congruence|]. now rewrite orb_false_r.
  - rewrite (Hinv u Hne). destruct (mem u before) eqn:Hm; simpl.
    + apply IH. intros x Hx. rewrite mem_app, Hinv by assumption. simpl.
      destruct (String.eqb_spec x u); [subst; now rewrite Hm|].
      now rewrite orb_false_r.
    + f_equal. apply IH. intros x Hx. rewrite mem_app, mem_cons, Hinv by assumption.
      simpl. destruct (String.eqb_spec x u); simpl; [now rewrite orb_true_r|].
      now rewrite !orb_false_r.
Qed.

Lemma dedupe_loop_v1_first_seen seen before l :
  (forall x, mem x seen = mem x before) ->
  dedupe_loop_v1 seen l = first_seen_all_from before l.
Proof.
  revert seen before. induction l as [|u r IH]; intros seen before Hinv; [reflexivity|].
  simpl. rewrite Hinv. destruct (mem u before) eqn:Hm; simpl.
  - apply IH. intros x. rewrite mem_app, Hinv. simpl.
    destruct (String.eqb_spec x u); [subst; now rewrite Hm|].
    now rewrite orb_false_r.
  - f_equal. apply IH. intros x. rewrite mem_app, mem_cons, Hinv.
    simpl. destruct (String.eqb_spec x u); simpl; [now rewrite orb_true_r|].
    now rewrite !orb_false_r.
Qed.

Lemma dedupe_loop_fresh seen l x :
  In x (dedupe_loop seen l) -> x <> "" /\ mem x seen = false.
Proof.
  revert seen. induction l as [|u r IH]; intros seen H; [destruct H|].
  simpl in H. destruct (String.eqb u "" || mem u seen) eqn:Hc.
  - now apply IH.
  - apply orb_false_iff in Hc as [Hu Hm]. destruct H as [<-|H].
    + split; [now apply String.eqb_neq|assumption].
    + apply IH in H as [Hx Hx']. rewrite mem_cons in Hx'.
      apply orb_false_iff in Hx' as [_ Hx']. now split.
Qed.

Lemma dedupe_loop_nodup seen l : NoDup (dedupe_loop seen l).
Proof.
  revert seen. induction l as [|u r IH]; intros seen; simpl; [constructor|].
  destruct (String.eqb u "" || mem u seen); [apply IH|].
  constructor; [|apply IH]. intros Hin. apply dedupe_loop_fresh in Hin as [_ Hm].
  rewrite mem_cons, String.eqb_refl in Hm. discriminate.
Qed.

Lemma dedupe_loop_v1_fresh seen l x :
  In x (dedupe_loop_v1 seen l) -> mem x seen = false.
Proof.
  revert seen. induction l as [|u r IH]; intros seen H; [destruct H|].
  simpl in H. destruct (mem u seen) eqn:Hc.
  - now apply IH.
  - destruct H as [<-|H]; [assumption|].
    apply IH in H. rewrite mem_cons in H. now apply orb_false_iff in H as [_ H].
Qed.

Lemma dedupe_loop_v1_nodup seen l : NoDup (dedupe_loop_v1 seen l).
Proof.
  revert seen. induction l as [|u r IH]; intros seen; simpl; [constructor|].
  destruct (mem u seen); [apply IH|].
  constructor; [|apply IH]. intros Hin. apply dedupe_loop_v1_fresh in Hin.
  rewrite mem_cons, String.eqb_refl in Hin. discriminate.
Qed.

End DedupeFacts.

Module DedupeClaims.
Import Dedupe DedupeFacts.

(** C9 (amended): the [_dedupe] of src/extract_dom.py returns the non-empty
    entries of its input at their first occurrence, in first-seen order,
    without duplicates and without empty entries; the older [_dedupe] of
    src/zenrows_scraper/extract_dom.py returns every entry at its first
    occurrence, in first-seen order and without duplicates, empty ones
    included. *)
Theorem dedupe_first_seen_unique (urls : list string) :
  _dedupe urls = first_seen urls /\ NoDup (_dedupe urls) /\ ~ In "" (_dedupe urls) /\
  _dedupe_v1 urls = first_seen_all urls /\ NoDup (_dedupe_v1 urls).
Proof.
  unfold _dedupe, _dedupe_v1, first_seen, first_seen_all.
  split; [now apply dedupe_loop_first_seen|].
  split; [apply dedupe_loop_nodup|].
  split; [intros H; apply dedupe_loop_fresh in H as [H _]; now apply H|].
  split; [now apply dedupe_loop_v1_first_seen|apply dedupe_loop_v1_nodup].
Qed.

(** C9 (counterexample): the [_dedupe] of src/zenrows_scraper/extract_dom.py
    keeps an empty entry. *)
Lemma dedupe_v1_keeps_empty : _dedupe_v1 [""] = [""] /\ In "" (_dedupe_v1 [""]).
Proof. split; [reflexivity | left; reflexivity]. Qed.

End DedupeClaims.

Module ContentTypeClaims.
Import ContentType.

Lemma scan_url_spec ul exts x :
  scan_url ul exts = Some x <->
  exists pre ext post, exts = (pre ++ ext :: post)%list /\
    Forall (fun e => contains ("." ++ e) ul = false) pre /\
    contains ("." ++ ext) ul = true /\
    x = (if String.eqb ext "jpeg" then "jpg" else ext).
Proof.
  induction exts as [|e r IH]; cbn [scan_url].
  - split; [discriminate|]. intros [pre [ext [post [H _]]]].
    destruct pre; discriminate.
  - destruct (contains ("." ++ e) ul) eqn:Hc.
    + split.
      * intros H. injection H as <-. exists [], e, r. auto.
      * intros [pre [ext [post [Heq [Hpre [Hext ->]]]]]].
        destruct pre as [|p pre]; simpl in Heq; injection Heq as -> ->; [reflexivity|].
        inversion Hpre; congruence.
    + rewrite IH. split.
      * intros [pre [ext [post [-> [Hpre [Hext ->]]]]]].
        exists (e :: pre), ext, post. repeat split; auto.
      * intros [pre [ext [post [Heq [Hpre [Hext ->]]]]]].
        destruct pre as [|p pre]; simpl in Heq; injection Heq as -> Heq; [congruence|].
        inversion Hpre; subst. exists pre, ext, post. auto.
Qed.

Lemma scan_url_none ul exts :
  scan_url ul exts = None <-> Forall (fun e => contains ("." ++ e) ul = false) exts.
Proof.
  induction exts as [|e r IH]; cbn [scan_url]; [split; auto|].
  destruct (contains ("." ++ e) ul) eqn:Hc.
  - split; [discriminate|]. intros H; inversion H; congruence.
  - rewrite IH. split; [auto|]. intros H; now inversion H.
Qed.

(** C10 (amended): [guess_ext_from_content_type] answers from the MIME table
    when the lower-cased content type is in it; otherwise it returns the
    first of png, jpg, jpeg, webp, gif, mp4, webm, m3u8 whose dotted form
    occurs anywhere in the lower-cased URL (jpeg answered as jpg), and
    [None] when none occurs. In particular ("image/png", any URL) gives png,
    ("", "https://x/y/photo.jpeg") gives jpg and
    ("text/html", "https://x/y/z") gives [None]. *)
Theorem guess_ext_table_then_url_scan (ct url : string) :
  (forall e, lookup (lower ct) mapping = Some e ->
     guess_ext_from_content_type ct url = Some e) /\
  (lookup (lower ct) mapping = None ->
     (forall x, guess_ext_from_content_type ct url = Some x <->
        exists pre ext post,
          ["png"; "jpg"; "jpeg"; "webp"; "gif"; "mp4"; "webm"; "m3u8"] = (pre ++ ext :: post)%list /\
          Forall (fun e => contains ("." ++ e) (lower url) = false) pre /\
          contains ("." ++ ext) (lower url) = true /\
          x = (if String.eqb ext "jpeg" then "jpg" else ext)) /\
     (guess_ext_from_content_type ct url = None <->
        Forall (fun e => contains ("." ++ e) (lower url) = false)
          ["png"; "jpg"; "jpeg"; "webp"; "gif"; "mp4"; "webm"; "m3u8"])) /\
  guess_ext_from_content_type "image/png" url = Some "png" /\
  guess_ext_from_content_type "" "https://x/y/photo.jpeg" = Some "jpg" /\
  guess_ext_from_content_type "text/html" "https://x/y/z" = None.
Proof.
  unfold guess_ext_from_content_type.
  split; [intros e He; now rewrite He|].
  split.
  - intros Hn. rewrite Hn. split; [intros y; apply scan_url_spec | apply scan_url_none].
  - repeat split; vm_compute; reflexivity.
Qed.

(** C10 (counterexample): the URL fallback is a substring test, not a
    suffix test: a URL ending in ".webp" is typed png. *)
Lemma guess_ext_not_suffix :
  guess_ext_from_content_type "" "https://cdn.x/images/logo.png/resize.webp" = Some "png" /\
  endswith ".webp" (lower "https://cdn.x/images/logo.png/resize.webp") = true /\
  endswith ".png" (lower "https://cdn.x/images/logo.png/resize.webp") = false.
Proof. repeat split; vm_compute; reflexivity. Qed.

End ContentTypeClaims.

Module StrFacts.

Lemma prefix_lower (t u : string) :
  String.prefix t u = true -> String.prefix (lower t) (lower u) = true.
Proof.
  revert u. induction t as [|a t IH]; intros u H; [destruct u; reflexivity|].
  destruct u as [|b u]; [discriminate|]. simpl in *.
  destruct (ascii_dec a b) as [<-|]; [|discriminate].
  destruct (ascii_dec (lower_char a) (lower_char a)) as [_|n]; [now apply IH|now contradiction n].
Qed.

Lemma contains_lower (t u : string) :
  contains t u = true -> contains (lower t) (lower u) = true.
Proof.
  induction u as [|c u IH]; intros H.
  - cbn [contains] in H. destruct (String.prefix t "") eqn:Hp; [|simpl in H; discriminate].
    apply prefix_lower in Hp. cbn [contains lower] in *. now rewrite Hp.
  - cbn [contains] in H. cbn [lower contains].
    destruct (String.prefix t (String c u)) eqn:Hp.
    + apply prefix_lower in Hp. cbn [lower] in Hp. now rewrite Hp.
    + destruct (String.prefix (lower t) (String (lower_char c) (lower u))); auto.
Qed.

Lemma fold_penalties_le (full_l : string) (bads : list string) (s : Z) :
  (fold_left (fun s bad => if contains bad full_l then (s - 25)%Z else s) bads s <= s)%Z.
Proof.
  revert s. induction bads as [|b r IH]; intros s; simpl; [lia|].
  destruct (contains b full_l).
  - specialize (IH (s - 25)%Z). lia.
  - apply IH.
Qed.

Lemma fold_penalties_none (full_l : string) (bads : list string) (s : Z) :
  Forall (fun b => contains b full_l = false) bads ->
  fold_left (fun s bad => if contains bad full_l then (s - 25)%Z else s) bads s = s.
Proof.
  revert s. induction bads as [|b r IH]; intros s H; simpl; [reflexivity|].
  inversion H as [|? ? Hb Hr]; subst. rewrite Hb. now apply IH.
Qed.

End StrFacts.

Module PickFacts.
Import Extract LogoSpec.

Lemma pick_loop_max {A} (score : A -> Z) (url : A -> string) imgs bu bs :
  pick_loop score url imgs bu bs =
  match list_max_opt (map score imgs) with
  | Some m => if (bs <? m)%Z
              then (option_map url (find (fun i => Z.eqb (score i) m) imgs), m)
              else (bu, bs)
  | None => (bu, bs)
  end.
Proof.
  revert bu bs. induction imgs as [|i r IH]; intros bu bs; [reflexivity|].
  cbn [pick_loop map list_max_opt find].
  destruct (bs <? score i)%Z eqn:Hlt; rewrite IH.
  - destruct (list_max_opt (map score r)) as [m'|].
    + destruct (score i <? m')%Z eqn:H2.
      * rewrite Z.max_r by lia. rewrite (proj2 (Z.ltb_lt bs m')) by lia.
        replace (score i =? m')%Z with false by lia. reflexivity.
      * rewrite Z.max_l by lia. rewrite Hlt, Z.eqb_refl. reflexivity.
    + rewrite Hlt, Z.eqb_refl. reflexivity.
  - destruct (list_max_opt (map score r)) as [m'|].
    + destruct (bs <? m')%Z eqn:H2.
      * rewrite Z.max_r by lia. rewrite H2.
        replace (score i =? m')%Z with false by lia. reflexivity.
      * replace (bs <? Z.max (score i) m')%Z with false by lia. reflexivity.
    + rewrite Hlt. reflexivity.
Qed.

Lemma pick_loop_from {A} (score : A -> Z) (url : A -> string) imgs bu bs x s :
  pick_loop score url imgs bu bs = (Some x, s) ->
  bu = Some x \/ exists i, In i imgs /\ x = url i /\ (bs < score i)%Z.
Proof.
  revert bu bs. induction imgs as [|i r IH]; intros bu bs H; simpl in H.
  - injection H as ->. now left.
  - destruct (bs <? score i)%Z eqn:Hlt.
    + apply IH in H as [H|[j [Hj [-> Hs]]]].
      * injection H as <-. right. exists i. split; [now left|split; [reflexivity|lia]].
      * right. exists j. split; [now right|split; [reflexivity|lia]].
    + apply IH in H as [H|[j [Hj [-> Hs]]]]; [now left|].
      right. exists j. split; [now right|split; [reflexivity|lia]].
Qed.

Lemma logo_score_not_excluded urljoin src_of base hint anc el :
  (-999 < logo_score urljoin src_of base hint (anc, el))%Z ->
  src_of (Dom.attrs_of el) <> "" /\
  _is_tracker (urljoin base (src_of (Dom.attrs_of el))) = false.
Proof.
  unfold logo_score.
  destruct (String.eqb_spec (src_of (Dom.attrs_of el)) "") as [_|Hne]; [lia|].
  destruct (_is_tracker (urljoin base (src_of (Dom.attrs_of el)))); [lia|]. auto.
Qed.

Lemma dedupe_loop_incl seen l x : In x (Dedupe.dedupe_loop seen l) -> In x l.
Proof.
  revert seen. induction l as [|u r IH]; intros seen H; [destruct H|].
  simpl in H. destruct (String.eqb u "" || mem u seen).
  - right. eapply IH; eauto.
  - destruct H as [<-|H]; [now left|right; eapply IH; eauto].
Qed.

End PickFacts.

Module TrackerClaims.
Import Dom Extract LogoSpec StrFacts PickFacts.

Lemma trackers_lower : Forall (fun t => lower t = t) TRACKER_HOST_SUBSTRINGS.
Proof. repeat constructor. Qed.

(** C5 (amended): a URL containing one of the tracker substrings is a
    tracker for [_is_tracker]; a tracker URL is never the logo URL and
    never in the image URL list of [extract_dom]. The direct-video list and
    the video embeds are not tracker-filtered. *)
Theorem tracker_never_logo_or_image urljoin (doc : node) (base u : string) :
  (forall t, In t TRACKER_HOST_SUBSTRINGS -> contains t u = true -> _is_tracker u = true) /\
  (_is_tracker u = true ->
     logo_url (extract_dom urljoin doc base) <> Some u /\
     ~ In u (image_urls (extract_dom urljoin doc base))).
Proof.
  split.
  - intros t Ht Hc. unfold _is_tracker. apply existsb_exists. exists t.
    split; [assumption|]. apply contains_lower in Hc.
    pose proof trackers_lower as L. rewrite Forall_forall in L.
    now rewrite (L t Ht) in Hc.
  - intros Ht. unfold extract_dom.
    destruct (_collect_video_urls urljoin doc base) as [vids embeds]. cbn [logo_url image_urls].
    split.
    + unfold _pick_logo_img, pick_logo_with.
      destruct (pick_loop _ _ _ None (-999)%Z) as [bu bs] eqn:Hp.
      destruct (0 <=? bs)%Z; [|discriminate].
      intros ->. apply pick_loop_from in Hp as [Hn|[[anc el] [_ [Hx Hs]]]]; [discriminate|].
      apply logo_score_not_excluded in Hs as [_ Hnt]. cbn [snd] in Hx. congruence.
    + unfold collect_image_urls, Dedupe._dedupe. intros Hin.
      apply dedupe_loop_incl, in_flat_map in Hin as [[anc el] [_ Hin]].
      cbn [snd] in Hin.
      destruct (String.eqb (img_src (attrs_of el)) ""); [destruct Hin|].
      destruct (_is_tracker (urljoin base (img_src (attrs_of el)))) eqn:Hn; [destruct Hin|].
      destruct Hin as [Hu|[]]. congruence.
Qed.

(** C5 (counterexample): a tracker link to an mp4 file is a direct video
    URL, and a tracker URL declared by [og:video] is a video embed. *)
Lemma tracker_video_and_embed_kept :
  In "https://ad.doubleclick.net/promo.mp4"
     (video_urls (extract_dom Url.urljoin tracker_video_page "https://acme.com/")) /\
  _is_tracker "https://ad.doubleclick.net/promo.mp4" = true /\
  In (MetaEmbed "og:video" "https://www.facebook.com/tr?id=1")
     (video_embeds (extract_dom Url.urljoin tracker_video_page "https://acme.com/")) /\
  _is_tracker "https://www.facebook.com/tr?id=1" = true.
Proof. vm_compute. repeat split; auto. Qed.

End TrackerClaims.

Module LogoClaims.
Import Dom Extract LogoSpec PickFacts.

Lemma pick_logo_with_first_max urljoin src_of doc base hint :
  pick_logo_with urljoin src_of doc base hint =
  first_max_choice (logo_score urljoin src_of base (lower hint))
    (fun img => urljoin base (src_of (attrs_of (snd img)))) (find_all "img" doc).
Proof.
  unfold pick_logo_with, first_max_choice. rewrite pick_loop_max.
  destruct (list_max_opt _) as [m|]; [|reflexivity].
  destruct (-999 <? m)%Z eqn:H1; [reflexivity|].
  replace (0 <=? m)%Z with false by lia. reflexivity.
Qed.

(** C6: in both versions, [_pick_logo_img] returns the URL of the first
    image, in document order, among those of maximal score (a running
    maximum replaced only on a strictly higher score), and [None] unless
    that score is at least 0. *)
Theorem pick_logo_first_max urljoin (doc : node) (base hint : string) :
  _pick_logo_img urljoin doc base hint =
    first_max_choice (logo_score urljoin img_src base (lower hint))
      (fun img => urljoin base (img_src (attrs_of (snd img)))) (find_all "img" doc) /\
  _pick_logo_img_v1 urljoin doc base hint =
    first_max_choice (logo_score urljoin img_src_v1 base (lower hint))
      (fun img => urljoin base (img_src_v1 (attrs_of (snd img)))) (find_all "img" doc).
Proof. split; apply pick_logo_with_first_max. Qed.

(** C8 (amended): in src/extract_dom.py an image's effective source is the
    first non-empty of [src], [data-src], [data-lazy-src], in that order
    (stripped); the version in src/zenrows_scraper/extract_dom.py reads
    [src] only. *)
Theorem img_src_preference (a : list (string * string)) :
  img_src a = strip (first_truthy (map (fun k => get k a) ["src"; "data-src"; "data-lazy-src"])) /\
  img_src_v1 a = strip (first_truthy [get "src" a]).
Proof.
  unfold img_src, img_src_v1, py_or. cbn [map first_truthy].
  split; f_equal;
    repeat match goal with
           | |- context [match ?o with Some _ => _ | None => _ end] => destruct o
           | |- context [if String.eqb ?v "" then _ else _] => destruct (String.eqb v "")
           end; reflexivity.
Qed.

(** C8 (counterexample): the zenrows_scraper version ignores [data-src]:
    a lazy-loaded header logo has no source there and no logo is chosen,
    where src/extract_dom.py chooses it. *)
Lemma lazy_logo_ignored_by_v1 :
  img_src_v1 [("data-src", "/img/logo.png"); ("alt", "Acme")] = "" /\
  _pick_logo_img_v1 Url.urljoin acme_lazy_page "https://acme.com/" "acme" = None /\
  _pick_logo_img Url.urljoin acme_lazy_page "https://acme.com/" "acme" =
    Some "https://acme.com/img/logo.png".
Proof. vm_compute. repeat split. Qed.

End LogoClaims.

Module AcmeClaims.
Import Dom Extract LogoSpec StrFacts PickFacts.

Lemma in_header_true anc : In "header" anc -> in_header_or_nav anc = true.
Proof. intros H. apply existsb_exists. exists "header". split; [assumption|reflexivity]. Qed.

Lemma badge_score_le_70 urljoin src_of base anc a k :
  in_header_or_nav anc = false ->
  (logo_score urljoin src_of base "acme" (anc, Elem "img" a k) <= 70)%Z.
Proof.
  intros Hanc. unfold logo_score. cbn [attrs_of].
  destruct (String.eqb (src_of a) ""); [lia|].
  destruct (_is_tracker (urljoin base (src_of a))); [lia|].
  rewrite Hanc.
  set (full_l := lower (urljoin base (src_of a))).
  match goal with
  | |- context [fold_left ?f BAD_SUBSTRINGS ?s0] =>
      pose proof (fold_penalties_le full_l BAD_SUBSTRINGS s0) as Hf;
      set (F := fold_left f BAD_SUBSTRINGS s0) in *
  end.
  assert (F <= 60)%Z.
  { eapply Z.le_trans; [exact Hf|].
    repeat match goal with |- context [if ?b then _ else _] => destruct b end; lia. }
  destruct (_same_domain _ base); lia.
Qed.

Lemma fold_penalties_count (full_l : string) (bads : list string) (s : Z) :
  fold_left (fun s bad => if contains bad full_l then (s - 25)%Z else s) bads s =
    (s - 25 * Z.of_nat (length (filter (fun b => contains b full_l) bads)))%Z.
Proof.
  revert s. induction bads as [|b r IH]; intros s; cbn [fold_left filter]; [cbn; lia|].
  destruct (contains b full_l); rewrite IH; [cbn [length]|]; lia.
Qed.

(** C7 (amended): take an image inside a [<header>] with alt text
    "Acme logo" and an image outside any header or nav with alt text
    "Acme award badge", on a page whose base URL has brand hint "acme". If
    the header image has a non-empty source whose resolved URL is not a
    tracker and contains at most one of the penalty substrings, it scores
    110 minus 25 per penalty substring, plus 10 when same-domain, so at
    least 85, and the badge at most 70; when these are the page's only
    images, the header image's URL is the logo. This holds for both
    versions of the source resolution. *)
Theorem header_logo_outscores_badge urljoin src_of (doc : node) (base : string)
    (anc1 anc2 : list string) (a1 a2 : list (string * string)) (k1 k2 : list node) :
  (src_of = img_src \/ src_of = img_src_v1) ->
  brand_hint_of base = "acme" ->
  get "alt" a1 = Some "Acme logo" ->
  get "alt" a2 = Some "Acme award badge" ->
  In "header" anc1 ->
  in_header_or_nav anc2 = false ->
  src_of a1 <> "" ->
  _is_tracker (urljoin base (src_of a1)) = false ->
  (length (filter (fun b => contains b (lower (urljoin base (src_of a1)))) BAD_SUBSTRINGS) <= 1)%nat ->
  (find_all "img" doc = [(anc1, Elem "img" a1 k1); (anc2, Elem "img" a2 k2)] \/
   find_all "img" doc = [(anc2, Elem "img" a2 k2); (anc1, Elem "img" a1 k1)]) ->
  logo_score urljoin src_of base "acme" (anc1, Elem "img" a1 k1) =
    (110 - 25 * Z.of_nat (length (filter (fun b => contains b (lower (urljoin base (src_of a1))))
                                         BAD_SUBSTRINGS)) +
     (if _same_domain (urljoin base (src_of a1)) base then 10 else 0))%Z /\
  (85 <= logo_score urljoin src_of base "acme" (anc1, Elem "img" a1 k1))%Z /\
  (logo_score urljoin src_of base "acme" (anc2, Elem "img" a2 k2) <= 70)%Z /\
  pick_logo_with urljoin src_of doc base (brand_hint_of base) = Some (urljoin base (src_of a1)).
Proof.
  intros _ Hb Halt1 _ Hh1 Hh2 Hsrc Htr Hn Hdoc.
  set (n := length (filter (fun b => contains b (lower (urljoin base (src_of a1)))) BAD_SUBSTRINGS)) in *.
  set (S1v := logo_score urljoin src_of base "acme" (anc1, Elem "img" a1 k1)).
  assert (S1 : S1v = (110 - 25 * Z.of_nat n +
                      (if _same_domain (urljoin base (src_of a1)) base then 10 else 0))%Z).
  { unfold S1v, logo_score. cbn [attrs_of].
    apply String.eqb_neq in Hsrc. rewrite Hsrc, Htr, (in_header_true _ Hh1), Halt1.
    rewrite fold_penalties_count. fold n.
    change (contains "logo" (lower (py_or (Some "Acme logo") ""))) with true.
    change (contains "acme" (lower (py_or (Some "Acme logo") ""))) with true.
    change (negb ("acme" =? "")%string) with true. cbn [orb andb].
    destruct (_same_domain (urljoin base (src_of a1)) base); lia. }
  assert (S85 : (85 <= S1v)%Z) by (rewrite S1; destruct (_same_domain _ base); lia).
  pose proof (badge_score_le_70 urljoin src_of base anc2 a2 k2 Hh2) as S2.
  split; [exact S1|]. split; [exact S85|]. split; [exact S2|].
  unfold pick_logo_with. rewrite Hb. change (lower "acme") with "acme".
  destruct Hdoc as [Hd|Hd]; rewrite Hd; cbn [pick_loop]; fold S1v.
  - replace (-999 <? S1v)%Z with true by lia. cbn -[logo_score].
    replace (S1v <? logo_score urljoin src_of base "acme" (anc2, Elem "img" a2 k2))%Z
      with false by lia.
    replace (0 <=? S1v)%Z with true by lia. reflexivity.
  - destruct (-999 <? logo_score urljoin src_of base "acme" (anc2, Elem "img" a2 k2))%Z;
      cbn -[logo_score];
      [replace (logo_score urljoin src_of base "acme" (anc2, Elem "img" a2 k2) <? S1v)%Z
         with true by lia|replace (-999 <? S1v)%Z with true by lia];
      replace (0 <=? S1v)%Z with true by lia; reflexivity.
Qed.

(** C7 witness: the page [acme_page] at https://acme.com/. *)
Lemma header_logo_outscores_badge_witness :
  find_all "img" acme_page =
    [(["header"; "[document]"], acme_header_logo); (["[document]"], acme_badge)] /\
  (85 <= logo_score Url.urljoin img_src "https://acme.com/" "acme"
    (["header"; "[document]"], acme_header_logo))%Z /\
  (logo_score Url.urljoin img_src "https://acme.com/" "acme"
    (["[document]"], acme_badge) <= 70)%Z /\
  pick_logo_with Url.urljoin img_src acme_page "https://acme.com/"
    (brand_hint_of "https://acme.com/") = Some (Url.urljoin "https://acme.com/" "/img/brand.png").
Proof.
  split; [vm_compute; reflexivity|].
  destruct (header_logo_outscores_badge Url.urljoin img_src acme_page "https://acme.com/"
           ["header"; "[document]"] ["[document]"]
           [("src", "/img/brand.png"); ("alt", "Acme logo")]
           [("src", "/img/seal.png"); ("alt", "Acme award badge")] [] [])
    as [_ [H85 [H70 Hpick]]].
  - left; reflexivity.
  - vm_compute; reflexivity.
  - reflexivity.
  - reflexivity.
  - left; reflexivity.
  - vm_compute; reflexivity.
  - vm_compute; discriminate.
  - vm_compute; reflexivity.
  - vm_compute; lia.
  - left; vm_compute; reflexivity.
  - split; [exact H85|]. split; [exact H70|]. exact Hpick.
Defined.

(** C7 (counterexample): when the header logo is declared through
    [srcset] only, it scores -999 and the award badge becomes the logo;
    and when the header logo's URL holds two penalty words
    ([review], [award]) it scores 70, ties with a badge of class [logo]
    that comes first, and the badge is selected. *)
Lemma srcset_header_logo_loses_to_badge :
  logo_score Url.urljoin img_src "https://acme.com/" "acme"
    (["header"; "[document]"], acme_srcset_logo) = (-999)%Z /\
  logo_score Url.urljoin img_src "https://acme.com/" "acme"
    (["[document]"], acme_badge) = 50%Z /\
  logo_url (extract_dom Url.urljoin acme_srcset_page "https://acme.com/") =
    Some "https://acme.com/img/seal.png" /\
  logo_score Url.urljoin img_src "https://acme.com/" "acme"
    (["header"; "[document]"], acme_review_logo) = 70%Z /\
  logo_score Url.urljoin img_src "https://acme.com/" "acme"
    (["[document]"], acme_logo_class_badge) = 70%Z /\
  logo_url (extract_dom Url.urljoin acme_penalised_page "https://acme.com/") =
    Some "https://acme.com/img/seal.png".
Proof. vm_compute. repeat split. Qed.

End AcmeClaims.

Module DownloadClaims.
Import Download.

Lemma zlen_app {A} (l1 l2 : list A) : zlen (l1 ++ l2)%list = (zlen l1 + zlen l2)%Z.
Proof. unfold zlen. rewrite length_app. lia. Qed.

Lemma zlen_nonneg {A} (l : list A) : (0 <= zlen l)%Z.
Proof. unfold zlen. lia. Qed.

Lemma stream_loop_prefix max cs total written t' w' :
  total = zlen written -> (total <= max)%Z ->
  stream_loop max total written cs = (t', w') ->
  (zlen w' <= max)%Z /\
  exists k, w' = (written ++ concat (firstn k cs))%list /\
    (k = length cs \/ (max < zlen written + zlen (concat (firstn (S k) cs)))%Z).
Proof.
  revert total written. induction cs as [|c r IH]; intros total written Ht Hle Hrun.
  - cbn in Hrun. injection Hrun as <- <-. split; [lia|].
    exists 0%nat. rewrite app_nil_r. auto.
  - destruct c as [|b c'].
    + cbn [stream_loop] in Hrun. apply IH in Hrun as [Hw [k [Hk Hcase]]]; [|assumption..].
      split; [assumption|]. exists (S k). cbn [firstn concat app]. split; [assumption|].
      destruct Hcase as [->|Hc]; [now left|right; exact Hc].
    + cbn [stream_loop] in Hrun.
      destruct (max <? total + zlen (b :: c'))%Z eqn:Hgt.
      * injection Hrun as <- <-. split; [lia|]. exists 0%nat.
        rewrite app_nil_r. split; [reflexivity|right].
        cbn [firstn concat]. rewrite app_nil_r. lia.
      * apply IH in Hrun as [Hw [k [Hk Hcase]]];
          [|rewrite zlen_app; lia|lia].
        split; [assumption|]. exists (S k). cbn [firstn concat].
        rewrite app_assoc. split; [assumption|].
        destruct Hcase as [->|Hc]; [now left|right].
        cbn [firstn concat] in *. rewrite zlen_app in *. lia.
Qed.

(** C2: with a ceiling [max_bytes >= 0], whatever the server sends (any
    Content-Length, range honoured or not), [download_stream_capped] writes
    at most [max_bytes] bytes: the file is the chunks received before the
    first chunk that would take the running total past [max_bytes], and
    that chunk is not written. *)
Theorem capped_download_writes_at_most_max (get : server) (url : string) (out : path)
    (max_b : Z) (fr : fetch_result) (file : list byte) :
  (0 <= max_b)%Z ->
  download_stream_capped get url out max_b = inr (fr, file) ->
  (zlen file <= max_b)%Z /\
  exists r k, get url (Some (max_b - 1)%Z) = inr r /\
    file = concat (firstn k (chunks r)) /\
    (k = length (chunks r) \/ (max_b < zlen (concat (firstn (S k) (chunks r))))%Z).
Proof.
  intros Hmax. unfold download_stream_capped.
  destruct (get url (Some (max_b - 1)%Z)) as [e|r] eqn:Hget; [discriminate|].
  destruct (raise_for_status r); [discriminate|].
  destruct (stream_loop max_b 0 [] (chunks r)) as [t w] eqn:Hrun.
  intros H. injection H as _ <-.
  apply stream_loop_prefix in Hrun as [Hw [k [Hk Hcase]]]; [|reflexivity|assumption].
  split; [assumption|]. exists r, k. split; [reflexivity|]. split; [exact Hk|].
  destruct Hcase as [Hc|Hc]; [now left|right; exact Hc].
Qed.

(** C2 witness: a server ignoring the range and sending two bytes, with a
    ceiling of one byte. *)
Lemma capped_download_writes_at_most_max_witness :
  (0 <= 1)%Z /\
  download_stream_capped two_byte_server "https://acme.com/clip.mp4" (VidTmp 0) 1 =
    inr ({| requested_url := "https://acme.com/clip.mp4";
            fr_final_url := "https://acme.com/clip.mp4"; status := 200;
            content_type := "video/mp4"; bytes := 2; fr_path := VidTmp 0;
            capped := Some true; max_bytes := Some 1%Z |}, []) /\
  (zlen (@nil byte) <= 1)%Z.
Proof.
  split; [lia|]. split; [reflexivity|].
  exact (proj1 (capped_download_writes_at_most_max two_byte_server "https://acme.com/clip.mp4"
                  (VidTmp 0) 1 _ [] ltac:(lia) eq_refl)).
Defined.

(** C1 (code defect): the reported [bytes] is the running total including
    the chunk that was not written, so with [capped = True] it exceeds
    [max_bytes] as soon as the body does. *)
Theorem capped_result_bytes_exceed_cap :
  exists fr,
    download_stream_capped two_byte_server "https://acme.com/clip.mp4" (VidTmp 0) 1 = inr (fr, []) /\
    capped fr = Some true /\ max_bytes fr = Some 1%Z /\ bytes fr = 2%Z.
Proof. eexists. repeat split. Qed.

End DownloadClaims.

Module FetchClaims.
Import Fetch.

(** C3 (code defect): [503, 503, 200] under a budget of at least 3 gives
    the 200 after two sleeps of [min(20, 2^attempt)] plus jitter, but five
    500s under a budget of 5 raise [RuntimeError] chained from [None]:
    retryable statuses never set [last_err], so no underlying error is
    wrapped. *)
Theorem zenrows_get_retry_runs (jitter : nat -> Q) (extra : nat) :
  zenrows_get srv_503_503_200 jitter (3 + Z.of_nat extra) =
    ([(inject_Z 1 + jitter 0%nat)%Q; (inject_Z 2 + jitter 1%nat)%Q], Returned 200) /\
  zenrows_get srv_all_500 jitter 5 =
    ([(inject_Z 1 + jitter 0%nat)%Q; (inject_Z 2 + jitter 1%nat)%Q;
      (inject_Z 4 + jitter 2%nat)%Q; (inject_Z 8 + jitter 3%nat)%Q;
      (inject_Z 16 + jitter 4%nat)%Q], Failed None).
Proof.
  split; [|reflexivity].
  unfold zenrows_get. replace (Z.to_nat (3 + Z.of_nat extra)) with (S (S (S extra))) by lia.
  reflexivity.
Qed.

End FetchClaims.

Module OrchestratorClaims.
Import Download Orchestrator.

Lemma video_body_one_entry E i u s :
  (snd (video_body E i u s) = inr tt /\
     exists e, downloaded_videos (fst (video_body E i u s)) = (downloaded_videos s ++ [e])%list) \/
  (exists err, snd (video_body E i u s) = inl err /\ fst (video_body E i u s) = s).
Proof.
  unfold video_body, bind, lift, modify.
  destruct (download_stream_capped (http_get E) u (VidTmp i) VIDEO_MAX_BYTES)
    as [err|res]; [right; exists err; split; reflexivity|].
  cbn [fst].
  destruct (ContentType.guess_ext_from_content_type (content_type (fst res)) (fr_final_url (fst res)))
    as [ext|].
  - destruct (replace_file E (VidTmp i) (VidFinal i ext)) as [err|[]];
      [right; exists err; split; reflexivity|].
    left. split; [reflexivity|]. eexists; reflexivity.
  - left. split; [reflexivity|]. eexists; reflexivity.
Qed.

(** The video loop records exactly one entry per URL and never raises. *)
Lemma video_loop_one_entry_each E i urls s :
  snd (video_loop E i urls s) = inr tt /\
  length (downloaded_videos (fst (video_loop E i urls s))) =
    (length (downloaded_videos s) + length urls)%nat.
Proof.
  revert i s. induction urls as [|u r IH]; intros i s; [cbn; split; [reflexivity|lia]|].
  cbn [video_loop]. unfold bind, try_except.
  destruct (video_body_one_entry E i u s) as [[Hok [e He]]|[err [Herr Hs]]].
  - destruct (video_body E i u s) as [s' res] eqn:Hb. cbn in Hok, He. subst res.
    destruct (IH (S i) s') as [H1 H2]. split; [assumption|].
    rewrite H2, He, length_app. cbn. lia.
  - destruct (video_body E i u s) as [s' res] eqn:Hb. cbn in Herr, Hs. subst res s'.
    unfold modify. destruct (IH (S i) (push_video (error_entry u err) s)) as [H1 H2].
    split; [assumption|]. rewrite H2. cbn. rewrite length_app. cbn. lia.
Qed.

(** The image loop never raises: a failing asset does not stop the others. *)
Lemma image_loop_never_raises E i urls s : snd (image_loop E i urls s) = inr tt.
Proof.
  revert i s. induction urls as [|u r IH]; intros i s; [reflexivity|].
  cbn [image_loop]. unfold bind, try_except.
  destruct (image_body E i u s) as [s' [err|[]]]; [|apply IH].
  unfold modify. apply IH.
Qed.

(** C4 (code defect): an image that downloads as PNG and whose palette step
    fails gets two entries, the [ok] one appended before [node_palette]
    raised and the error one of the [except] branch. *)
Theorem palette_failure_records_two_entries :
  snd (download_assets palette_fails_env ["https://acme.com/hero.png"] []) = inr tt /\
  map (fun e => (e_requested_url e, e_ok e, e_error e))
    (downloaded_images (fst (download_assets palette_fails_env ["https://acme.com/hero.png"] []))) =
  [("https://acme.com/hero.png", true, None);
   ("https://acme.com/hero.png", false, Some "palette.cjs failed")].
Proof. vm_compute. split; reflexivity. Qed.

End OrchestratorClaims.

(* ------------------------------------------------------------------ *)
(** ** The retry loop in general *)

Module FetchFacts.
Import Fetch.

Lemma in_retry_statuses s : existsb (Z.eqb s) RETRY_STATUSES = true -> (400 <= s < 600)%Z.
Proof.
  cbn. intros H. repeat (apply orb_true_iff in H as [H|H]; [apply Z.eqb_eq in H; lia|]).
  discriminate.
Qed.

Lemma retry_status_in s : existsb (Z.eqb s) RETRY_STATUSES = true -> In s RETRY_STATUSES.
Proof.
  intros H. apply existsb_exists in H as [x [Hx Hx']]. apply Z.eqb_eq in Hx'. subst. exact Hx.
Qed.

Lemma retry_status_in_rev s : In s RETRY_STATUSES -> existsb (Z.eqb s) RETRY_STATUSES = true.
Proof. intros H. apply existsb_exists. exists s. split; [exact H|apply Z.eqb_refl]. Qed.

Lemma retry_loop_failed_len srv jitter fuel : forall a last c,
  snd (retry_loop srv jitter a fuel last) = Failed c ->
  length (fst (retry_loop srv jitter a fuel last)) = fuel.
Proof.
  induction fuel as [|f IH]; intros a last c H; [reflexivity|].
  cbn [retry_loop] in *.
  destruct (srv a) as [st|e].
  - destruct (existsb (Z.eqb st) RETRY_STATUSES).
    + destruct (retry_loop srv jitter (S a) f last) as [sl res] eqn:E.
      specialize (IH (S a) last c). rewrite E in IH. cbn in *. f_equal. auto.
    + destruct ((400 <=? st) && (st <? 600))%Z; [|discriminate].
      destruct (retry_loop srv jitter (S a) f (Some (HTTPError st))) as [sl res] eqn:E.
      specialize (IH (S a) (Some (HTTPError st)) c). rewrite E in IH. cbn in *. f_equal. auto.
  - destruct (retry_loop srv jitter (S a) f (Some e)) as [sl res] eqn:E.
    specialize (IH (S a) (Some e) c). rewrite E in IH. cbn in *. f_equal. auto.
Qed.

Lemma retry_loop_success srv jitter k : forall a fuel last st,
  (forall j, (a <= j < a + k)%nat ->
     match srv j with Responded s => (400 <= s < 600)%Z | Raised _ => True end) ->
  srv (a + k)%nat = Responded st -> ~ (400 <= st < 600)%Z -> (k < fuel)%nat ->
  retry_loop srv jitter a fuel last = (map (backoff jitter) (seq a k), Returned st).
Proof.
  induction k as [|k IH]; intros a fuel last st Hf Hk Hst Hlt.
  - destruct fuel as [|fuel]; [lia|]. cbn [retry_loop]. rewrite Nat.add_0_r in Hk. rewrite Hk.
    destruct (existsb (Z.eqb st) RETRY_STATUSES) eqn:Er;
      [apply in_retry_statuses in Er; lia|].
    destruct ((400 <=? st) && (st <? 600))%Z eqn:E; [|reflexivity].
    apply andb_true_iff in E as [E1 E2]. apply Z.leb_le in E1. apply Z.ltb_lt in E2. lia.
  - destruct fuel as [|fuel]; [lia|]. cbn [retry_loop].
    assert (Hk' : srv (S a + k)%nat = Responded st) by (rewrite <- Hk; f_equal; lia).
    assert (Hf' : forall j, (S a <= j < S a + k)%nat ->
              match srv j with Responded s => (400 <= s < 600)%Z | Raised _ => True end)
      by (intros j Hj; apply Hf; lia).
    specialize (Hf a ltac:(lia)).
    destruct (srv a) as [s|e].
    + destruct (existsb (Z.eqb s) RETRY_STATUSES) eqn:Er.
      * rewrite (IH (S a) fuel last st Hf' Hk' Hst ltac:(lia)). reflexivity.
      * assert (E : ((400 <=? s) && (s <? 600))%Z = true)
          by (apply andb_true_iff; rewrite Z.leb_le, Z.ltb_lt; lia).
        rewrite E, (IH (S a) fuel (Some (HTTPError s)) st Hf' Hk' Hst ltac:(lia)). reflexivity.
    + rewrite (IH (S a) fuel (Some e) st Hf' Hk' Hst ltac:(lia)). reflexivity.
Qed.

Lemma retry_loop_exhausted srv jitter fuel : forall a last,
  (forall j, (a <= j < a + fuel)%nat ->
     match srv j with Responded s => (400 <= s < 600)%Z | Raised _ => True end) ->
  fst (retry_loop srv jitter a fuel last) = map (backoff jitter) (seq a fuel) /\
  exists c, snd (retry_loop srv jitter a fuel last) = Failed c /\
    (c = None <-> last = None /\
       forall j, (a <= j < a + fuel)%nat -> exists s, srv j = Responded s /\ In s RETRY_STATUSES).
Proof.
  induction fuel as [|f IH]; intros a last Hf.
  - cbn. split; [reflexivity|]. exists last. split; [reflexivity|].
    split; [intros ->; split; [reflexivity|intros; lia]|intros [H _]; exact H].
  - assert (Hf' : forall j, (S a <= j < S a + f)%nat ->
              match srv j with Responded s => (400 <= s < 600)%Z | Raised _ => True end)
      by (intros j Hj; apply Hf; lia).
    pose proof (Hf a ltac:(lia)) as Ha.
    cbn [retry_loop]. destruct (srv a) as [s|e] eqn:Hsa.
    + destruct (existsb (Z.eqb s) RETRY_STATUSES) eqn:Er.
      * destruct (IH (S a) last Hf') as [H1 [c [H2 H3]]].
        destruct (retry_loop srv jitter (S a) f last) as [sl res]. cbn in *.
        split; [rewrite H1; reflexivity|]. exists c. split; [exact H2|].
        rewrite H3. split.
        -- intros [Hl Hj]. split; [exact Hl|]. intros j Hj'.
           destruct (Nat.eq_dec j a) as [->|Hne]; [|apply Hj; lia].
           exists s. split; [exact Hsa|]. apply retry_status_in. exact Er.
        -- intros [Hl Hj]. split; [exact Hl|]. intros j Hj'. apply Hj. lia.
      * assert (E : ((400 <=? s) && (s <? 600))%Z = true)
          by (apply andb_true_iff; rewrite Z.leb_le, Z.ltb_lt; lia).
        rewrite E.
        destruct (IH (S a) (Some (HTTPError s)) Hf') as [H1 [c [H2 H3]]].
        destruct (retry_loop srv jitter (S a) f (Some (HTTPError s))) as [sl res]. cbn in *.
        split; [rewrite H1; reflexivity|]. exists c. split; [exact H2|].
        rewrite H3. split; [intros [Hl _]; discriminate|].
        intros [_ Hj]. destruct (Hj a ltac:(lia)) as [s' [Hs' Hin]].
        rewrite Hsa in Hs'. injection Hs' as <-.
        pose proof (retry_status_in_rev s Hin) as Hin'. cbn in Hin'. congruence.
    + destruct (IH (S a) (Some e) Hf') as [H1 [c [H2 H3]]].
      destruct (retry_loop srv jitter (S a) f (Some e)) as [sl res]. cbn in *.
      split; [rewrite H1; reflexivity|]. exists c. split; [exact H2|].
      rewrite H3. split; [intros [Hl _]; discriminate|].
      intros [_ Hj]. destruct (Hj a ltac:(lia)) as [s' [Hs' _]]. congruence.
Qed.

Lemma retry_loop_sleeps srv jitter fuel : forall a last d,
  In d (fst (retry_loop srv jitter a fuel last)) -> exists j, d = backoff jitter j.
Proof.
  induction fuel as [|f IH]; intros a last d H; [destruct H|].
  cbn [retry_loop] in H.
  destruct (srv a) as [s|e].
  - destruct (existsb (Z.eqb s) RETRY_STATUSES).
    + destruct (retry_loop srv jitter (S a) f last) as [sl res] eqn:E.
      destruct H as [<-|H]; [eauto|]. apply (IH (S a) last). rewrite E. exact H.
    + destruct ((400 <=? s) && (s <? 600))%Z; [|destruct H].
      destruct (retry_loop srv jitter (S a) f (Some (HTTPError s))) as [sl res] eqn:E.
      destruct H as [<-|H]; [eauto|]. apply (IH (S a) (Some (HTTPError s))). rewrite E. exact H.
  - destruct (retry_loop srv jitter (S a) f (Some e)) as [sl res] eqn:E.
    destruct H as [<-|H]; [eauto|]. apply (IH (S a) (Some e)). rewrite E. exact H.
Qed.

Lemma zenrows_get_failed_len srv jitter n c :
  snd (zenrows_get srv jitter n) = Failed c ->
  length (fst (zenrows_get srv jitter n)) = Z.to_nat n.
Proof. apply retry_loop_failed_len. Qed.

End FetchFacts.

Module FetchExtras.
Import Fetch FetchFacts.

(** [zenrows_get]: when the first [k] attempts fail (a raised request or a
    4xx/5xx status) and attempt [k < max_retries] answers a status outside
    4xx/5xx, that response is returned after exactly [k] sleeps, the i-th of
    [min(20, 2^i)] plus jitter. *)
Theorem zenrows_get_first_success (srv : nat -> get_outcome) (jitter : nat -> Q)
    (max_retries : Z) (k : nat) (st : Z) :
  (forall j, (j < k)%nat ->
     match srv j with Responded s => (400 <= s < 600)%Z | Raised _ => True end) ->
  srv k = Responded st -> ~ (400 <= st < 600)%Z -> (Z.of_nat k < max_retries)%Z ->
  zenrows_get srv jitter max_retries = (map (backoff jitter) (seq 0 k), Returned st).
Proof.
  intros Hf Hk Hst Hlt. unfold zenrows_get.
  apply retry_loop_success; [intros j Hj; apply Hf; lia|exact Hk|exact Hst|lia].
Qed.

Lemma zenrows_get_first_success_witness :
  (forall j, (j < 2)%nat ->
     match Fetch.srv_503_503_200 j with Responded s => (400 <= s < 600)%Z | Raised _ => True end) /\
  srv_503_503_200 2 = Responded 200 /\ ~ (400 <= 200 < 600)%Z /\ (Z.of_nat 2 < 3)%Z /\
  zenrows_get srv_503_503_200 (fun _ => 0%Q) 3 =
    (map (backoff (fun _ => 0%Q)) (seq 0 2), Returned 200).
Proof.
  assert (Hf : forall j, (j < 2)%nat ->
     match Fetch.srv_503_503_200 j with Responded s => (400 <= s < 600)%Z | Raised _ => True end)
    by (intros [|[|j]] Hj; cbn; lia).
  split; [exact Hf|]. split; [reflexivity|]. split; [lia|]. split; [lia|].
  exact (zenrows_get_first_success srv_503_503_200 (fun _ => 0%Q) 3 2 200 Hf eq_refl
           ltac:(lia) ltac:(lia)).
Defined.

(** [zenrows_get]: when every one of the [max_retries] attempts fails, it
    sleeps after each of them, the last one included, and raises; the
    [RuntimeError] is chained from no error exactly when every attempt
    answered a retryable status (429, 500, 502, 503, 504). *)
Theorem zenrows_get_exhausted (srv : nat -> get_outcome) (jitter : nat -> Q) (max_retries : Z) :
  (forall j, (j < Z.to_nat max_retries)%nat ->
     match srv j with Responded s => (400 <= s < 600)%Z | Raised _ => True end) ->
  fst (zenrows_get srv jitter max_retries) = map (backoff jitter) (seq 0 (Z.to_nat max_retries)) /\
  exists c, snd (zenrows_get srv jitter max_retries) = Failed c /\
    (c = None <-> forall j, (j < Z.to_nat max_retries)%nat ->
                  exists s, srv j = Responded s /\ In s RETRY_STATUSES).
Proof.
  intros Hf. unfold zenrows_get.
  destruct (retry_loop_exhausted srv jitter (Z.to_nat max_retries) 0 None) as [H1 [c [H2 H3]]];
    [intros j Hj; apply Hf; lia|].
  split; [exact H1|]. exists c. split; [exact H2|]. rewrite H3. split.
  - intros [_ H] j Hj. apply H. lia.
  - intros H. split; [reflexivity|]. intros j Hj. apply H. lia.
Qed.

Lemma zenrows_get_exhausted_witness :
  (forall j, (j < Z.to_nat 5)%nat ->
     match srv_all_500 j with Responded s => (400 <= s < 600)%Z | Raised _ => True end) /\
  snd (zenrows_get srv_all_500 (fun _ => 0%Q) 5) = Failed None.
Proof.
  assert (Hf : forall j, (j < Z.to_nat 5)%nat ->
     match srv_all_500 j with Responded s => (400 <= s < 600)%Z | Raised _ => True end)
    by (intros j _; cbn; lia).
  split; [exact Hf|].
  destruct (zenrows_get_exhausted srv_all_500 (fun _ => 0%Q) 5 Hf) as [_ [c [Hc Hiff]]].
  rewrite Hc. f_equal. apply Hiff. intros j _. exists 500%Z. split; [reflexivity|cbn; tauto].
Defined.

(** [zenrows_get]: with a jitter drawn in [[0, 0.5]], every sleep lasts
    between 1 and 20.5 time units. *)
Theorem zenrows_get_sleeps_bounded (srv : nat -> get_outcome) (jitter : nat -> Q) (max_retries : Z) :
  (forall j, 0 <= jitter j <= 1 # 2)%Q ->
  Forall (fun d => 1 <= d <= 41 # 2)%Q (fst (zenrows_get srv jitter max_retries)).
Proof.
  intros Hj. apply Forall_forall. intros d Hd.
  apply retry_loop_sleeps in Hd as [j ->]. unfold backoff.
  assert (Hp : (1 <= 2 ^ Z.of_nat j)%Z)
    by (change 1%Z with (2 ^ 0)%Z; apply Z.pow_le_mono_r; lia).
  assert (Hm : (1 <= inject_Z (Z.min 20 (2 ^ Z.of_nat j)) <= 20)%Q).
  { split; [change (inject_Z 1 <= inject_Z (Z.min 20 (2 ^ Z.of_nat j)))%Q
           |change (inject_Z (Z.min 20 (2 ^ Z.of_nat j)) <= inject_Z 20)%Q];
    rewrite <- Zle_Qle; lia. }
  specialize (Hj j). lra.
Qed.

Lemma zenrows_get_sleeps_bounded_witness :
  (forall j : nat, 0 <= (fun _ => 1 # 4) j <= 1 # 2)%Q /\
  Forall (fun d => 1 <= d <= 41 # 2)%Q (fst (zenrows_get srv_all_500 (fun _ => 1 # 4)%Q 5)).
Proof.
  assert (Hj : forall j : nat, (0 <= (fun _ => 1 # 4) j <= 1 # 2)%Q)
    by (intros j; cbn; split; unfold Qle; cbn; lia).
  split; [exact Hj|]. exact (zenrows_get_sleeps_bounded srv_all_500 _ 5 Hj).
Defined.

End FetchExtras.

Module LadderExtras.
Import Fetch FetchFacts FetchLadder.

(** [fetch_rendered_html] of src/zenrows_scraper/zenrows_fetch.py returns
    the response of the first configuration, in the order (js, premium),
    (js, no premium), (no js, no premium), whose [zenrows_get] succeeds,
    after two sleeps for each earlier configuration; when none succeeds it
    raises after exactly six sleeps, chained from the [RuntimeError] of the
    last configuration (never from [None]). *)
Theorem fetch_rendered_html_v1_ladder (srv : bool * bool -> nat -> get_outcome)
    (jitter : nat -> nat -> Q) :
  match snd (fetch_rendered_html_v1 srv jitter) with
  | HtmlReturned cfg st =>
      exists i, nth_error HTML_ATTEMPTS i = Some cfg /\
        snd (zenrows_get (srv cfg) (jitter i) 2) = Returned st /\
        length (fst (fetch_rendered_html_v1 srv jitter)) =
          (2 * i + length (fst (zenrows_get (srv cfg) (jitter i) 2)))%nat /\
        (forall i' cfg', (i' < i)%nat -> nth_error HTML_ATTEMPTS i' = Some cfg' ->
           exists c, snd (zenrows_get (srv cfg') (jitter i') 2) = Failed c)
  | HtmlFailed last_err =>
      length (fst (fetch_rendered_html_v1 srv jitter)) = 6%nat /\
      exists c, last_err = Some c /\
        snd (zenrows_get (srv (false, false)) (jitter 2%nat) 2) = Failed c
  end.
Proof.
  unfold fetch_rendered_html_v1, HTML_ATTEMPTS. cbn [ladder].
  destruct (zenrows_get (srv (true, true)) (jitter 0%nat) 2) as [sl0 r0] eqn:E0.
  pose proof (zenrows_get_failed_len (srv (true, true)) (jitter 0%nat) 2) as L0.
  rewrite E0 in L0. cbn -[zenrows_get] in L0.
  destruct r0 as [st0|c0].
  { cbn -[zenrows_get]. exists 0%nat. rewrite E0. cbn -[zenrows_get].
    split; [reflexivity|]. split; [reflexivity|]. split; [lia|]. intros; lia. }
  specialize (L0 c0 eq_refl).
  destruct (zenrows_get (srv (true, false)) (jitter 1%nat) 2) as [sl1 r1] eqn:E1.
  pose proof (zenrows_get_failed_len (srv (true, false)) (jitter 1%nat) 2) as L1.
  rewrite E1 in L1. cbn -[zenrows_get] in L1.
  destruct r1 as [st1|c1].
  { cbn -[zenrows_get]. exists 1%nat. rewrite E1. cbn -[zenrows_get].
    split; [reflexivity|]. split; [reflexivity|].
    split; [rewrite length_app; cbn in L0; lia|].
    intros [|i'] cfg' Hi Hn; [|lia]. injection Hn as <-. exists c0. rewrite E0. reflexivity. }
  specialize (L1 c1 eq_refl).
  destruct (zenrows_get (srv (false, false)) (jitter 2%nat) 2) as [sl2 r2] eqn:E2.
  pose proof (zenrows_get_failed_len (srv (false, false)) (jitter 2%nat) 2) as L2.
  rewrite E2 in L2. cbn -[zenrows_get] in L2.
  destruct r2 as [st2|c2].
  { cbn -[zenrows_get]. exists 2%nat. rewrite E2. cbn -[zenrows_get].
    split; [reflexivity|]. split; [reflexivity|].
    split; [rewrite !length_app; cbn in L0, L1; lia|].
    intros [|[|i']] cfg' Hi Hn; [| |lia]; injection Hn as <-.
    - exists c0. rewrite E0. reflexivity.
    - exists c1. rewrite E1. reflexivity. }
  specialize (L2 c2 eq_refl).
  cbn -[zenrows_get]. rewrite !length_app. cbn in L0, L1, L2.
  split; [cbn; lia|]. exists c2. split; [reflexivity|]. reflexivity.
Qed.

End LadderExtras.

(* ------------------------------------------------------------------ *)
(** ** [str.strip] and [uniq] *)

Module StripFacts.

Lemma str_app_nil_r s : (s ++ "")%string = s.
Proof. induction s as [|c s IH]; cbn; [reflexivity|now rewrite IH]. Qed.

Lemma str_app_assoc a b c : (a ++ (b ++ c))%string = ((a ++ b) ++ c)%string.
Proof. induction a as [|x a IH]; cbn; [reflexivity|now rewrite IH]. Qed.

Lemma rev_str_app a b : rev_str (a ++ b) = (rev_str b ++ rev_str a)%string.
Proof.
  induction a as [|c a IH]; cbn [rev_str append].
  - now rewrite str_app_nil_r.
  - rewrite IH. apply eq_sym, str_app_assoc.
Qed.

Lemma rev_str_involutive s : rev_str (rev_str s) = s.
Proof.
  induction s as [|c s IH]; [reflexivity|]. cbn [rev_str].
  rewrite rev_str_app, IH. reflexivity.
Qed.

Lemma lstrip_idem s : lstrip (lstrip s) = lstrip s.
Proof.
  induction s as [|c s IH]; [reflexivity|]. cbn [lstrip].
  destruct (is_space c) eqn:Hc; [exact IH|]. cbn [lstrip]. now rewrite Hc.
Qed.

(** [lstrip] drops a run of whitespace. *)
Lemma lstrip_split s : exists sp, s = (sp ++ lstrip s)%string.
Proof.
  induction s as [|c s [sp IH]]; [exists ""; reflexivity|]. cbn [lstrip].
  destruct (is_space c).
  - exists (String c sp). cbn. congruence.
  - exists "". reflexivity.
Qed.

Lemma lstrip_lead_ok s : lead_ok s = true -> lstrip s = s.
Proof. destruct s as [|c s]; [reflexivity|]. cbn. now destruct (is_space c). Qed.

Lemma lead_ok_lstrip s : lead_ok (lstrip s) = true.
Proof.
  induction s as [|c s IH]; [reflexivity|]. cbn [lstrip].
  destruct (is_space c) eqn:Hc; [exact IH|]. cbn. now rewrite Hc.
Qed.

Lemma lead_ok_app a b : a <> "" -> lead_ok (a ++ b) = lead_ok a.
Proof. destruct a; [congruence|reflexivity]. Qed.

Lemma strip_idem s : strip (strip s) = strip s.
Proof.
  unfold strip.
  set (a := lstrip s). set (b := lstrip (rev_str a)).
  assert (Ha : lead_ok a = true) by apply lead_ok_lstrip.
  destruct (lstrip_split (rev_str a)) as [sp Hsp]. fold b in Hsp.
  assert (Hb : lead_ok (rev_str b) = true).
  { assert (E : a = (rev_str b ++ rev_str sp)%string)
      by (rewrite <- rev_str_app, <- Hsp, rev_str_involutive; reflexivity).
    destruct (string_dec (rev_str b) "") as [->|Hne]; [reflexivity|].
    rewrite <- (lead_ok_app _ (rev_str sp) Hne), <- E. exact Ha. }
  rewrite (lstrip_lead_ok _ Hb), rev_str_involutive.
  unfold b at 1. rewrite lstrip_idem. reflexivity.
Qed.

End StripFacts.

Module UniqExtras.
Import Uniq Dedupe DedupeFacts StripFacts.

Lemma uniq_loop_dedupe seen l : uniq_loop seen l = dedupe_loop seen (map strip l).
Proof.
  revert seen. induction l as [|x r IH]; intros seen; [reflexivity|].
  cbn. destruct (String.eqb (strip x) "" || mem (strip x) seen); [apply IH|].
  f_equal. apply IH.
Qed.

(** [uniq] of src/run_brand_scrape.py is [_dedupe] applied to the stripped
    entries: it keeps, in first-seen order and without duplicates, the
    non-empty stripped entries, and every entry it returns is already
    stripped. *)
Theorem uniq_is_dedupe_of_stripped (seq : list string) :
  uniq seq = _dedupe (map strip seq) /\ NoDup (uniq seq) /\ ~ In "" (uniq seq) /\
  Forall (fun x => strip x = x) (uniq seq).
Proof.
  assert (E : uniq seq = _dedupe (map strip seq)) by apply uniq_loop_dedupe.
  rewrite E. split; [reflexivity|]. split; [apply dedupe_loop_nodup|].
  split; [intros H; apply dedupe_loop_fresh in H as [H _]; now apply H|].
  apply Forall_forall. intros x Hx. apply PickFacts.dedupe_loop_incl in Hx.
  apply in_map_iff in Hx as [y [<- _]]. apply strip_idem.
Qed.

End UniqExtras.

(* ------------------------------------------------------------------ *)
(** ** The stable descending sort *)

Module SortFacts.
Import InlineSvg.

Section Sort.
Context {A : Type} (f : A -> Z).

Lemma insert_perm x l : Permutation (insert_desc_by f x l) (x :: l).
Proof.
  induction l as [|y r IH]; cbn; [reflexivity|].
  destruct (f x <=? f y)%Z; [|reflexivity].
  rewrite IH. apply perm_swap.
Qed.

Lemma insert_sorted x l : StronglySorted (desc_by f) l -> StronglySorted (desc_by f) (insert_desc_by f x l).
Proof.
  induction l as [|y r IH]; intros Hs; cbn.
  - repeat constructor.
  - inversion Hs as [|? ? Hr Hall]; subst.
    destruct (f x <=? f y)%Z eqn:E.
    + constructor; [now apply IH|]. apply Forall_forall. intros z Hz.
      apply (Permutation_in _ (insert_perm x r)) in Hz as [<-|Hz].
      * unfold desc_by. lia.
      * rewrite Forall_forall in Hall. now apply Hall.
    + apply Z.leb_gt in E. constructor; [exact Hs|]. constructor; [unfold desc_by; lia|].
      rewrite Forall_forall in Hall |- *. intros z Hz. specialize (Hall z Hz).
      unfold desc_by in *. lia.
Qed.

Lemma insert_filter k x l : StronglySorted (desc_by f) l ->
  filter (fun z => (f z =? k)%Z) (insert_desc_by f x l) =
  (filter (fun z => (f z =? k)%Z) l ++ (if (f x =? k)%Z then [x] else []))%list.
Proof.
  induction l as [|y r IH]; intros Hs; cbn.
  - now destruct (f x =? k)%Z.
  - inversion Hs as [|? ? Hr Hall]; subst.
    destruct (f x <=? f y)%Z eqn:E.
    + cbn. rewrite (IH Hr). now destruct (f y =? k)%Z.
    + apply Z.leb_gt in E. cbn.
      destruct (f x =? k)%Z eqn:Ex.
      * apply Z.eqb_eq in Ex.
        assert (Hy : (f y =? k)%Z = false) by (apply Z.eqb_neq; lia). rewrite Hy.
        assert (Hr0 : filter (fun z => (f z =? k)%Z) r = []).
        { rewrite Forall_forall in Hall. clear -Hall E Ex.
          induction r as [|z r' IHr]; [reflexivity|]. cbn.
          assert (Hz : (f z =? k)%Z = false).
          { apply Z.eqb_neq. specialize (Hall z (or_introl eq_refl)). unfold desc_by in Hall. lia. }
          rewrite Hz. apply IHr. intros w Hw. apply Hall. now right. }
        rewrite Hr0. reflexivity.
      * rewrite app_nil_r. reflexivity.
Qed.

Lemma sort_fold_props l : forall acc, StronglySorted (desc_by f) acc ->
  let s := fold_left (fun acc x => insert_desc_by f x acc) l acc in
  Permutation s (acc ++ l) /\ StronglySorted (desc_by f) s /\
  forall k, filter (fun z => (f z =? k)%Z) s =
            (filter (fun z => (f z =? k)%Z) acc ++ filter (fun z => (f z =? k)%Z) l)%list.
Proof.
  induction l as [|x r IH]; intros acc Hs; cbn.
  - rewrite !app_nil_r. split; [reflexivity|]. split; [exact Hs|]. intros k. now rewrite app_nil_r.
  - destruct (IH (insert_desc_by f x acc) (insert_sorted x acc Hs)) as [H1 [H2 H3]].
    split; [|split; [exact H2|]].
    + rewrite H1, (insert_perm x acc). rewrite <- Permutation_middle. reflexivity.
    + intros k. rewrite H3, (insert_filter k x acc Hs), <- app_assoc.
      f_equal. cbn. now destruct (f x =? k)%Z.
Qed.

(** [sort_desc_by] is a stable sort in descending order of [f]. *)
Lemma sort_desc_props l :
  Permutation (sort_desc_by f l) l /\ StronglySorted (desc_by f) (sort_desc_by f l) /\
  forall k, filter (fun z => (f z =? k)%Z) (sort_desc_by f l) = filter (fun z => (f z =? k)%Z) l.
Proof.
  destruct (sort_fold_props l [] (SSorted_nil _)) as [H1 [H2 H3]].
  split; [exact H1|]. split; [exact H2|]. intros k. exact (H3 k).
Qed.

End Sort.

Lemma sorted_desc_eq score l : Orchestrator.sorted_desc score l = sort_desc_by score l.
Proof.
  unfold Orchestrator.sorted_desc, sort_desc_by.
  assert (E : forall x acc, Orchestrator.insert_desc score x acc = insert_desc_by score x acc).
  { intros x acc. induction acc as [|y r IH]; cbn; [reflexivity|]. now rewrite IH. }
  generalize (@nil string). induction l as [|x r IH]; intros acc; cbn; [reflexivity|].
  rewrite E. apply IH.
Qed.

(** The first [n] of a stable descending sort: every kept element scores at
    least as high as every dropped one, and among equal scores the kept
    ones are the first in input order. *)
Lemma firstn_sorted_top {A : Type} (f : A -> Z) (n : nat) (l : list A) :
  let chosen := firstn n (sort_desc_by f l) in
  length chosen = Nat.min n (length l) /\
  exists rest, Permutation (chosen ++ rest) l /\
    (forall x y, In x chosen -> In y rest -> (f y <= f x)%Z) /\
    forall k, exists t, (filter (fun z => (f z =? k)%Z) chosen ++ t)%list =
                       filter (fun z => (f z =? k)%Z) l.
Proof.
  destruct (sort_desc_props f l) as [Hp [Hs Hf]]. cbn zeta.
  split; [rewrite length_firstn, (Permutation_length Hp); reflexivity|].
  exists (skipn n (sort_desc_by f l)). split; [rewrite firstn_skipn; exact Hp|]. split.
  - intros x y Hx Hy. rewrite <- (firstn_skipn n (sort_desc_by f l)) in Hs.
    clear -Hs Hx Hy. induction (firstn n (sort_desc_by f l)) as [|z c IH]; [destruct Hx|].
    cbn in Hs. inversion Hs as [|? ? Hs' Hall]; subst. destruct Hx as [<-|Hx].
    + rewrite Forall_forall in Hall. apply Hall, in_or_app. now right.
    + now apply IH.
  - intros k. exists (filter (fun z => (f z =? k)%Z) (skipn n (sort_desc_by f l))).
    rewrite <- filter_app, firstn_skipn. apply Hf.
Qed.

End SortFacts.

Module TopExtras.
Import Orchestrator SortFacts.

(** [choose_top_images] and [choose_top_videos] of src/run_brand_scrape.py
    return [min(limit, len(urls))] of the URLs; every URL returned scores at
    least as high as every URL left out, and among URLs of equal score the
    earlier ones in the input are returned first. *)
Theorem choose_top_is_stable_top_k (urls : list string) (limit : nat) :
  (length (choose_top_images urls limit) = Nat.min limit (length urls) /\
   exists rest, Permutation (choose_top_images urls limit ++ rest) urls /\
     (forall x y, In x (choose_top_images urls limit) -> In y rest ->
        (image_score y <= image_score x)%Z) /\
     forall k, exists t,
       (filter (fun z => (image_score z =? k)%Z) (choose_top_images urls limit) ++ t)%list =
       filter (fun z => (image_score z =? k)%Z) urls) /\
  (length (choose_top_videos urls limit) = Nat.min limit (length urls) /\
   exists rest, Permutation (choose_top_videos urls limit ++ rest) urls /\
     (forall x y, In x (choose_top_videos urls limit) -> In y rest ->
        (video_score y <= video_score x)%Z) /\
     forall k, exists t,
       (filter (fun z => (video_score z =? k)%Z) (choose_top_videos urls limit) ++ t)%list =
       filter (fun z => (video_score z =? k)%Z) urls).
Proof.
  unfold choose_top_images, choose_top_videos. rewrite !sorted_desc_eq.
  split; apply firstn_sorted_top.
Qed.

End TopExtras.

Module TopV1Extras.
Import Orchestrator TopImagesV1 Dedupe DedupeFacts InlineSvg SortFacts.

Lemma take_unique_firstn limit seen n l :
  take_unique limit seen n l = firstn (Z.to_nat (Z.max 1 (limit - Z.of_nat n))) (dedupe_loop_v1 seen l).
Proof.
  revert seen n. induction l as [|u r IH]; intros seen n; cbn [take_unique dedupe_loop_v1].
  - now rewrite firstn_nil.
  - destruct (mem u seen); [apply IH|].
    destruct (limit <=? Z.of_nat (S n))%Z eqn:E.
    + apply Z.leb_le in E. replace (Z.to_nat (Z.max 1 (limit - Z.of_nat n))) with 1%nat by lia.
      reflexivity.
    + apply Z.leb_gt in E. replace (Z.to_nat (Z.max 1 (limit - Z.of_nat n)))
        with (S (Z.to_nat (Z.max 1 (limit - Z.of_nat (S n))))) by lia.
      cbn [firstn]. f_equal. apply IH.
Qed.

(** [choose_top_images] of src/zenrows_scraper/run_brand_scrape.py returns
    the first [max(1, limit)] distinct URLs of the stably score-sorted input:
    no duplicates, and a [limit] of 1, 0 or less still yields one URL for a
    non-empty input. *)
Theorem choose_top_images_v1_spec (image_urls : list string) (limit : Z) :
  choose_top_images_v1 image_urls limit =
    firstn (Z.to_nat (Z.max 1 limit)) (_dedupe_v1 (sorted_desc image_score_v1 image_urls)) /\
  NoDup (choose_top_images_v1 image_urls limit) /\
  (image_urls <> [] -> (limit <= 1)%Z -> length (choose_top_images_v1 image_urls limit) = 1%nat).
Proof.
  assert (E : choose_top_images_v1 image_urls limit =
    firstn (Z.to_nat (Z.max 1 limit)) (_dedupe_v1 (sorted_desc image_score_v1 image_urls))).
  { unfold choose_top_images_v1, _dedupe_v1. rewrite take_unique_firstn.
    f_equal. f_equal. f_equal. lia. }
  split; [exact E|]. rewrite E. split.
  - eapply NoDup_app_remove_r. rewrite firstn_skipn. apply dedupe_loop_v1_nodup.
  - intros Hne Hl. replace (Z.to_nat (Z.max 1 limit)) with 1%nat by lia.
    rewrite sorted_desc_eq.
    destruct (sort_desc_by image_score_v1 image_urls) as [|u r] eqn:Hs.
    + destruct (sort_desc_props image_score_v1 image_urls) as [Hp _]. rewrite Hs in Hp.
      apply Permutation_nil in Hp. congruence.
    + reflexivity.
Qed.

Lemma choose_top_images_v1_spec_witness :
  ["a.png"; "hero.jpg"] <> [] /\ (0 <= 1)%Z /\
  length (choose_top_images_v1 ["a.png"; "hero.jpg"] 0) = 1%nat.
Proof.
  assert (H : ["a.png"; "hero.jpg"] <> []) by discriminate.
  split; [exact H|]. split; [lia|].
  exact (proj2 (proj2 (choose_top_images_v1_spec ["a.png"; "hero.jpg"] 0)) H ltac:(lia)).
Defined.

End TopV1Extras.

(* ------------------------------------------------------------------ *)
(** ** Colours *)

Module ContrastFacts.
Import Contrast StripFacts.

Lemma strip_hash_string c r : is_space c = false ->
  strip (String "#" (r ++ String c "")) = String "#" (r ++ String c "").
Proof.
  intros Hc. unfold strip.
  change (lstrip (String "#" (r ++ String c ""))) with (String "#" (r ++ String c "")).
  cbn [rev_str]. rewrite rev_str_app. cbn [rev_str append lstrip]. rewrite Hc.
  cbn [rev_str]. rewrite rev_str_app, rev_str_involutive. reflexivity.
Qed.

Lemma hex_digit_not_special c v : hex_digit c = Some v ->
  is_space c = false /\ Ascii.eqb c "x" = false /\ Ascii.eqb c "X" = false /\
  Ascii.eqb c "#" = false /\ (0 <= v <= 15)%Z.
Proof.
  destruct c as [[] [] [] [] [] [] [] []]; cbn; intros H; try discriminate;
    injection H as <-; repeat split; lia.
Qed.

Lemma lstrip_hash_skip c r : Ascii.eqb c "#" = false -> lstrip_hash (String c r) = String c r.
Proof. destruct c as [[] [] [] [] [] [] [] []]; cbn; congruence. Qed.

Lemma ascii_pairs_check (f : ascii -> ascii -> bool) :
  forallb (fun i => forallb (fun j => f (ascii_of_nat i) (ascii_of_nat j)) (seq 0 256)) (seq 0 256) = true ->
  forall a b, f a b = true.
Proof.
  intros C a b.
  rewrite forallb_forall in C. specialize (C (nat_of_ascii a)).
  rewrite in_seq in C. specialize (C ltac:(pose proof (nat_ascii_bounded a); lia)).
  rewrite forallb_forall in C. specialize (C (nat_of_ascii b)).
  rewrite in_seq in C. specialize (C ltac:(pose proof (nat_ascii_bounded b); lia)).
  rewrite !ascii_nat_embedding in C. exact C.
Qed.

Lemma int16_two_check : forall a b,
  (fun a b => match int16 (String a (String b "")), hex_digit a, hex_digit b with
              | Some v, Some v1, Some v2 => (v =? 16 * v1 + v2)%Z && (-15 <=? v)%Z && (v <=? 255)%Z
              | Some v, _, _ => (-15 <=? v)%Z && (v <=? 255)%Z
              | None, Some _, Some _ => false
              | None, _, _ => true
              end) a b = true.
Proof. apply ascii_pairs_check. vm_compute. reflexivity. Qed.

Lemma int16_two c1 c2 v1 v2 : hex_digit c1 = Some v1 -> hex_digit c2 = Some v2 ->
  int16 (String c1 (String c2 "")) = Some (16 * v1 + v2)%Z.
Proof.
  intros H1 H2. pose proof (int16_two_check c1 c2) as C. cbv beta in C.
  rewrite H1, H2 in C. destruct (int16 _); [|discriminate].
  apply andb_true_iff in C as [C _]. apply andb_true_iff in C as [C _].
  apply Z.eqb_eq in C. now subst.
Qed.

Lemma int16_two_bounds a b v : int16 (String a (String b "")) = Some v -> (-15 <= v <= 255)%Z.
Proof.
  intros H. pose proof (int16_two_check a b) as C. cbv beta in C. rewrite H in C.
  destruct (hex_digit a), (hex_digit b);
    repeat match goal with C : _ && _ = true |- _ => apply andb_true_iff in C as [? ?] end;
    repeat match goal with C : (_ <=? _)%Z = true |- _ => apply Z.leb_le in C end; lia.
Qed.

Lemma substring_two h k : (k + 2 <= String.length h)%nat ->
  exists a b, substring k 2 h = String a (String b "").
Proof.
  revert h. induction k as [|k IH]; intros h Hl.
  - destruct h as [|a [|b h]]; cbn in Hl; try lia. exists a, b. destruct h; reflexivity.
  - destruct h as [|c h]; cbn in Hl; [lia|]. cbn [substring]. apply IH. lia.
Qed.

End ContrastFacts.

Module ContrastExtras.
Import Contrast ContrastFacts.

(** [hex_to_rgb] of src/zenrows_scraper/run_brand_scrape.py reads
    [#rrggbb] as the three two-digit hexadecimal values (either case), and
    the shorthand [#rgb] as [#rrggbb]. *)
Theorem hex_to_rgb_digits (c1 c2 c3 c4 c5 c6 : ascii) (v1 v2 v3 v4 v5 v6 : Z) :
  hex_digit c1 = Some v1 -> hex_digit c2 = Some v2 -> hex_digit c3 = Some v3 ->
  hex_digit c4 = Some v4 -> hex_digit c5 = Some v5 -> hex_digit c6 = Some v6 ->
  hex_to_rgb (String "#" (String c1 (String c2 (String c3 (String c4 (String c5 (String c6 ""))))))) =
    Some ((16 * v1 + v2)%Z, (16 * v3 + v4)%Z, (16 * v5 + v6)%Z) /\
  hex_to_rgb (String "#" (String c1 (String c2 (String c3 "")))) =
    Some ((17 * v1)%Z, (17 * v2)%Z, (17 * v3)%Z).
Proof.
  intros H1 H2 H3 H4 H5 H6.
  destruct (hex_digit_not_special _ _ H1) as [S1 [_ [_ [P1 _]]]].
  destruct (hex_digit_not_special _ _ H3) as [S3 _].
  destruct (hex_digit_not_special _ _ H6) as [S6 _].
  split.
  - unfold hex_to_rgb.
    pose proof (strip_hash_string c6 (String c1 (String c2 (String c3 (String c4 (String c5 ""))))) S6) as Hs.
    cbn [append] in Hs. rewrite Hs.
    change (lstrip_hash (String "#" ?x)) with (lstrip_hash x). rewrite (lstrip_hash_skip _ _ P1).
    cbn [String.eqb Ascii.eqb String.length Nat.eqb negb substring double_chars append].
    rewrite (int16_two _ _ _ _ H1 H2), (int16_two _ _ _ _ H3 H4), (int16_two _ _ _ _ H5 H6).
    reflexivity.
  - unfold hex_to_rgb.
    pose proof (strip_hash_string c3 (String c1 (String c2 "")) S3) as Hs.
    cbn [append] in Hs. rewrite Hs.
    change (lstrip_hash (String "#" ?x)) with (lstrip_hash x). rewrite (lstrip_hash_skip _ _ P1).
    cbn [String.eqb Ascii.eqb String.length Nat.eqb negb substring double_chars append].
    rewrite (int16_two _ _ _ _ H1 H1), (int16_two _ _ _ _ H2 H2), (int16_two _ _ _ _ H3 H3).
    f_equal. f_equal; [f_equal|]; lia.
Qed.

Lemma hex_to_rgb_digits_witness :
  hex_digit "1" = Some 1%Z /\ hex_digit "a" = Some 10%Z /\ hex_digit "F" = Some 15%Z /\
  hex_to_rgb "#1aF1aF" = Some (26%Z, 241%Z, 175%Z).
Proof.
  split; [reflexivity|]. split; [reflexivity|]. split; [reflexivity|].
  exact (proj1 (hex_to_rgb_digits "1" "a" "F" "1" "a" "F" 1 10 15 1 10 15
                  eq_refl eq_refl eq_refl eq_refl eq_refl eq_refl)).
Defined.

(** [hex_to_rgb] never returns a component outside [-15, 255]: [int(s, 16)]
    accepts a sign, so a component can be negative (e.g. [#-f-f-f]), but
    never below -15. *)
Theorem hex_to_rgb_range (hex_color : string) (r g b : Z) :
  hex_to_rgb hex_color = Some (r, g, b) ->
  (-15 <= r <= 255)%Z /\ (-15 <= g <= 255)%Z /\ (-15 <= b <= 255)%Z.
Proof.
  unfold hex_to_rgb. destruct (String.eqb hex_color ""); [discriminate|].
  set (h := if (String.length (lstrip_hash (strip hex_color)) =? 3)%nat
            then double_chars (lstrip_hash (strip hex_color)) else lstrip_hash (strip hex_color)).
  destruct (String.length h =? 6)%nat eqn:Hl; [|discriminate]. apply Nat.eqb_eq in Hl. cbn [negb].
  destruct (substring_two h 0 ltac:(lia)) as [a0 [b0 E0]].
  destruct (substring_two h 2 ltac:(lia)) as [a1 [b1 E1]].
  destruct (substring_two h 4 ltac:(lia)) as [a2 [b2 E2]].
  rewrite E0, E1, E2.
  destruct (int16 (String a0 (String b0 ""))) as [x|] eqn:I0; [|discriminate].
  destruct (int16 (String a1 (String b1 ""))) as [y|] eqn:I1; [|discriminate].
  destruct (int16 (String a2 (String b2 ""))) as [z|] eqn:I2; [|discriminate].
  intros H. injection H as <- <- <-.
  apply int16_two_bounds in I0. apply int16_two_bounds in I1. apply int16_two_bounds in I2.
  auto.
Qed.

Lemma hex_to_rgb_range_witness :
  hex_to_rgb "#-f-f-f" = Some ((-15)%Z, (-15)%Z, (-15)%Z) /\ (-15 <= -15 <= 255)%Z.
Proof.
  split; [reflexivity|].
  exact (proj1 (hex_to_rgb_range "#-f-f-f" (-15) (-15) (-15) eq_refl)).
Defined.

(** [build_contrast_checks] looks at the first eight palette entries only
    and yields, in palette order, exactly two checks for each of those that
    [hex_to_rgb] parses: black text ([#000000]) and then white text
    ([#FFFFFF]) on that background, each with the rounded ratio and the AA
    (ratio at least 4.5) and AAA (at least 7) verdicts of its unrounded
    ratio; so at most sixteen checks, and a check that passes AAA also
    passes AA. *)
Theorem build_contrast_checks_shape (contrast_ratio : rgb -> rgb -> Q) (round2 : Q -> Q)
    (palette_hex : list string) :
  let checks := build_contrast_checks contrast_ratio round2 palette_hex in
  length checks =
    (2 * length (filter (fun s => match hex_to_rgb s with Some _ => true | None => false end)
                        (firstn 8 palette_hex)))%nat /\
  (length checks <= 16)%nat /\
  Forall (fun c => In (bg c) (firstn 8 palette_hex) /\ In (fg c) fg_candidates /\
                   (passesAAA c = true -> passesAA c = true)) checks /\
  exists blocks, checks = concat blocks /\
    Forall2 (fun bgc blk => exists bg_rgb, hex_to_rgb bgc = Some bg_rgb /\
       blk = [{| fg := "#000000"; bg := bgc; ratio := round2 (contrast_ratio (0, 0, 0)%Z bg_rgb);
                 passesAA := Qle_bool (45 # 10)%Q (contrast_ratio (0, 0, 0)%Z bg_rgb);
                 passesAAA := Qle_bool 7%Q (contrast_ratio (0, 0, 0)%Z bg_rgb) |};
              {| fg := "#FFFFFF"; bg := bgc; ratio := round2 (contrast_ratio (255, 255, 255)%Z bg_rgb);
                 passesAA := Qle_bool (45 # 10)%Q (contrast_ratio (255, 255, 255)%Z bg_rgb);
                 passesAAA := Qle_bool 7%Q (contrast_ratio (255, 255, 255)%Z bg_rgb) |}])
      (filter (fun s => match hex_to_rgb s with Some _ => true | None => false end)
              (firstn 8 palette_hex)) blocks.
Proof.
  cbn zeta. unfold build_contrast_checks.
  assert (Hfg : hex_to_rgb "#000000" = Some (0, 0, 0)%Z /\ hex_to_rgb "#FFFFFF" = Some (255, 255, 255)%Z)
    by (split; reflexivity).
  assert (Hlen : forall l : list string,
    length (flat_map (fun bgc =>
      match hex_to_rgb bgc with
      | None => []
      | Some bg_rgb =>
          flat_map (fun fgc =>
            match hex_to_rgb fgc with
            | None => []
            | Some fg_rgb =>
                [{| fg := fgc; bg := bgc; ratio := round2 (contrast_ratio fg_rgb bg_rgb);
                    passesAA := Qle_bool (45 # 10)%Q (contrast_ratio fg_rgb bg_rgb);
                    passesAAA := Qle_bool 7%Q (contrast_ratio fg_rgb bg_rgb) |}]
            end) fg_candidates
      end) l) =
    (2 * length (filter (fun s => match hex_to_rgb s with Some _ => true | None => false end) l))%nat).
  { induction l as [|x r IH]; [reflexivity|]. cbn [flat_map filter].
    rewrite length_app, IH.
    assert (Hf : hex_to_rgb "#000000" = Some (0, 0, 0)%Z /\ hex_to_rgb "#FFFFFF" = Some (255, 255, 255)%Z)
      by (split; reflexivity).
    destruct (hex_to_rgb x); cbn [flat_map fg_candidates]; rewrite ?(proj1 Hf), ?(proj2 Hf);
      cbn [length app]; lia. }
  split; [apply Hlen|]. split; [|split].
  - rewrite Hlen. pose proof (length_firstn 8 palette_hex).
    pose proof (filter_length_le (fun s => match hex_to_rgb s with Some _ => true | None => false end)
                  (firstn 8 palette_hex)). lia.
  - apply Forall_forall. intros c Hc. apply in_flat_map in Hc as [bgc [Hb Hc]].
    destruct (hex_to_rgb bgc) as [bg_rgb|]; [|destruct Hc].
    apply in_flat_map in Hc as [fgc [Hf Hc]].
    destruct (hex_to_rgb fgc) as [fg_rgb|]; [|destruct Hc].
    destruct Hc as [<-|[]]. cbn. split; [exact Hb|]. split; [exact Hf|].
    intros H. apply Qle_bool_iff in H. apply Qle_bool_iff. lra.
  - generalize (firstn 8 palette_hex). intros l.
    induction l as [|x r [blocks [E F2]]]; [exists []; split; [reflexivity|constructor]|].
    match goal with |- exists blocks, flat_map ?F (x :: r) = _ /\ _ =>
      change (flat_map F (x :: r)) with (F x ++ flat_map F r)%list end.
    rewrite E. cbn [filter]. cbv beta. destruct (hex_to_rgb x) as [bg_rgb|] eqn:Hx.
    + eexists (_ :: blocks). cbn [flat_map fg_candidates]. rewrite (proj1 Hfg), (proj2 Hfg).
      split; [reflexivity|]. constructor; [|exact F2]. exists bg_rgb. split; [exact Hx|reflexivity].
    + exists blocks. split; [reflexivity|exact F2].
Qed.

End ContrastExtras.

(* ------------------------------------------------------------------ *)
(** ** Images, logo and videos of [extract_dom] *)

Module ExtractFacts.
Import Dom Extract Dedupe DedupeFacts PickFacts.

Lemma fold_left_inv {A B : Type} (P : A -> Prop) (f : A -> B -> A) (l : list B) (a : A) :
  (forall a x, In x l -> P a -> P (f a x)) -> P a -> P (fold_left f l a).
Proof.
  revert a. induction l as [|x r IH]; intros a Hf Ha; cbn; [exact Ha|].
  apply IH; [intros b y Hy Hb; apply Hf; [now right|exact Hb]|].
  apply Hf; [now left|exact Ha].
Qed.

Lemma dedupe_loop_complete seen l x :
  In x l -> x <> "" -> In x (dedupe_loop seen l) \/ In x seen.
Proof.
  revert seen. induction l as [|u r IH]; intros seen H Hx; [destruct H|].
  cbn [dedupe_loop]. destruct (String.eqb u "" || mem u seen) eqn:Hc.
  - destruct H as [<-|H].
    + apply orb_true_iff in Hc as [Hc|Hc];
        [apply String.eqb_eq in Hc; congruence|right; now apply mem_In].
    + now apply IH.
  - destruct H as [<-|H]; [left; now left|].
    destruct (IH (u :: seen) H Hx) as [H'|[<-|H']]; [left; now right|left; now left|now right].
Qed.

Lemma dedupe_In l x : In x (_dedupe l) <-> In x l /\ x <> "".
Proof.
  unfold _dedupe. split.
  - intros H. split; [eapply dedupe_loop_incl; eauto|].
    now apply dedupe_loop_fresh in H as [H _].
  - intros [H Hx]. now destruct (dedupe_loop_complete [] l x H Hx) as [H'|[]].
Qed.

Lemma set_add_forall (P : string -> Prop) x s : P x -> Forall P s -> Forall P (set_add x s).
Proof.
  intros Hx Hs. unfold set_add. destruct (mem x s); [exact Hs|].
  apply Forall_app. split; [exact Hs|now constructor].
Qed.

Lemma add_candidates_video urljoin base cands d :
  Forall (fun u => is_video_url u = true) d ->
  Forall (fun u => is_video_url u = true) (add_candidates urljoin base cands d).
Proof.
  unfold add_candidates. apply fold_left_inv. intros a c _ Ha.
  destruct (_normalize_media_url _ _ _) as [nu|]; [|exact Ha].
  destruct (is_video_url nu) eqn:Hv; [|exact Ha]. now apply set_add_forall.
Qed.

Lemma video_tag_step_video urljoin base d v :
  Forall (fun u => is_video_url u = true) d ->
  Forall (fun u => is_video_url u = true) (video_tag_step urljoin base d v).
Proof.
  intros Hd. unfold video_tag_step. apply fold_left_inv.
  - intros a x _ Ha. now apply add_candidates_video.
  - now apply add_candidates_video.
Qed.

End ExtractFacts.

Module ExtractExtras.
Import Dom Extract Dedupe DedupeFacts PickFacts ExtractFacts.

(** The image list of [extract_dom] (src/extract_dom.py) holds exactly the
    non-empty, non-tracker [urljoin(base_url, src)] of the [<img>] elements
    with a non-empty source, each once. *)
Theorem extract_dom_image_urls_exact urljoin (doc : node) (base_url x : string) :
  NoDup (image_urls (extract_dom urljoin doc base_url)) /\
  (In x (image_urls (extract_dom urljoin doc base_url)) <->
   x <> "" /\ _is_tracker x = false /\
   exists anc el, In (anc, el) (find_all "img" doc) /\ img_src (attrs_of el) <> "" /\
                  x = urljoin base_url (img_src (attrs_of el))).
Proof.
  unfold extract_dom. destruct (_collect_video_urls urljoin doc base_url) as [vids embeds].
  cbn [image_urls]. unfold collect_image_urls. split; [apply dedupe_loop_nodup|].
  rewrite dedupe_In, in_flat_map. split.
  - intros [[[anc el] [Hin Hx]] Hne]. cbn [snd] in Hx.
    destruct (String.eqb_spec (img_src (attrs_of el)) "") as [_|Hs]; [destruct Hx|].
    destruct (_is_tracker (urljoin base_url (img_src (attrs_of el)))) eqn:Ht; [destruct Hx|].
    destruct Hx as [<-|[]]. split; [exact Hne|]. split; [exact Ht|]. exists anc, el. auto.
  - intros [Hne [Ht [anc [el [Hin [Hs ->]]]]]]. split; [|exact Hne].
    exists (anc, el). split; [exact Hin|]. cbn [snd].
    destruct (String.eqb_spec (img_src (attrs_of el)) "") as [E|_]; [contradiction|].
    rewrite Ht. now left.
Qed.

(** The logo URL chosen by [extract_dom] is one of its image URLs whenever
    it is not empty. *)
Theorem extract_dom_logo_in_images urljoin (doc : node) (base_url u : string) :
  logo_url (extract_dom urljoin doc base_url) = Some u -> u <> "" ->
  In u (image_urls (extract_dom urljoin doc base_url)).
Proof.
  intros Hl Hne. pose proof (extract_dom_image_urls_exact urljoin doc base_url u) as [_ Hiff].
  apply Hiff. revert Hl. unfold extract_dom.
  destruct (_collect_video_urls urljoin doc base_url) as [vids embeds]. cbn [logo_url].
  unfold _pick_logo_img, pick_logo_with.
  destruct (pick_loop _ _ _ None (-999)%Z) as [bu bs] eqn:Hp.
  destruct (0 <=? bs)%Z; [|discriminate]. intros ->.
  apply pick_loop_from in Hp as [Hn|[[anc el] [Hin [Hx Hs]]]]; [discriminate|].
  apply logo_score_not_excluded in Hs as [Hsrc Hnt]. cbn [snd] in Hx. subst u.
  split; [exact Hne|]. split; [exact Hnt|]. exists anc, el. auto.
Qed.

Lemma extract_dom_logo_in_images_witness :
  logo_url (extract_dom Url.urljoin LogoSpec.acme_page "https://acme.com/") =
    Some "https://acme.com/img/brand.png" /\
  In "https://acme.com/img/brand.png"
     (image_urls (extract_dom Url.urljoin LogoSpec.acme_page "https://acme.com/")).
Proof.
  assert (H : logo_url (extract_dom Url.urljoin LogoSpec.acme_page "https://acme.com/") =
              Some "https://acme.com/img/brand.png") by (vm_compute; reflexivity).
  split; [exact H|].
  apply (extract_dom_logo_in_images Url.urljoin LogoSpec.acme_page "https://acme.com/"
           "https://acme.com/img/brand.png" H). discriminate.
Defined.

(** [_collect_video_urls] returns direct URLs, each once, whose lower-cased
    form contains one of [.mp4], [.webm], [.m3u8], [.mov] anywhere (not
    necessarily at the end: [.../a.MP4?x=1] counts); every Vidyard embed has
    a non-empty, stripped uuid and the embed URL
    [https://play.vidyard.com/<uuid>.html]; every meta embed comes from one of
    the four video meta properties and its URL contains none of the four. *)
Theorem collect_video_urls_shape urljoin (doc : node) (base_url : string) :
  let '(direct, embeds) := _collect_video_urls urljoin doc base_url in
  NoDup direct /\ Forall (fun u => is_video_url u = true) direct /\
  Forall (fun e => match e with
                   | Vidyard uuid embedUrl _ =>
                       uuid <> "" /\ strip uuid = uuid /\
                       embedUrl = ("https://play.vidyard.com/" ++ uuid ++ ".html")%string
                   | MetaEmbed prop url => In prop META_VIDEO_PROPS /\ is_video_url url = false
                   end) embeds.
Proof.
  unfold _collect_video_urls.
  set (V := fun u => is_video_url u = true).
  set (EOK := fun e => match e with
                   | Vidyard uuid embedUrl _ =>
                       uuid <> "" /\ strip uuid = uuid /\
                       embedUrl = ("https://play.vidyard.com/" ++ uuid ++ ".html")%string
                   | MetaEmbed prop url => In prop META_VIDEO_PROPS /\ is_video_url url = false
                   end).
  set (d1 := fold_left (fun d v => video_tag_step urljoin base_url d (snd v)) (find_all "video" doc) []).
  assert (H1 : Forall V d1).
  { apply fold_left_inv; [|constructor]. intros a x _ Ha. now apply video_tag_step_video. }
  set (d2 := fold_left _ (find_all "a" doc) d1).
  assert (H2 : Forall V d2).
  { apply fold_left_inv; [|exact H1]. intros a x _ Ha.
    destruct (_normalize_media_url _ _ _) as [nu|]; [|exact Ha].
    destruct (is_video_url nu) eqn:Hv; [|exact Ha]. now apply set_add_forall. }
  set (e1 := flat_map _ (find_all_with_attr "data-vid-uuid" doc)).
  assert (H3 : Forall EOK e1).
  { apply Forall_forall. intros e He. apply in_flat_map in He as [t [_ He]].
    destruct (String.eqb_spec (strip (py_or (get "data-vid-uuid" (attrs_of (snd t))) "")) "")
      as [_|Hne]; [destruct He|].
    destruct He as [<-|[]]. cbn. split; [exact Hne|]. split; [apply StripFacts.strip_idem|reflexivity]. }
  match goal with |- context [fold_left ?f (find_all "meta" doc) (d2, e1)] =>
    assert (H4 : let '(d, e) := fold_left f (find_all "meta" doc) (d2, e1) in Forall V d /\ Forall EOK e);
    [apply fold_left_inv; [|split; assumption]|destruct (fold_left f (find_all "meta" doc) (d2, e1)) as [d e]]
  end.
  - intros [d e] m _ [Hd He]. cbn beta iota.
    destruct (mem _ META_VIDEO_PROPS) eqn:Hp; [|split; assumption].
    destruct (_normalize_media_url _ _ _) as [nu|]; [|split; assumption].
    destruct (is_video_url nu) eqn:Hv.
    + split; [now apply set_add_forall|exact He].
    + split; [exact Hd|]. apply Forall_app. split; [exact He|]. constructor; [|constructor].
      cbv delta [EOK] beta iota. split; [apply mem_In; exact Hp|exact Hv].
  - destruct H4 as [Hd He]. split; [apply dedupe_loop_nodup|]. split; [|exact He].
    apply Forall_forall. intros u Hu. apply dedupe_In in Hu as [Hu _].
    rewrite Forall_forall in Hd. now apply Hd.
Qed.

End ExtractExtras.

(* ------------------------------------------------------------------ *)
(** ** The inline SVG logo *)

Module SvgExtras.
Import Dom InlineSvg SortFacts.

Lemma filter_first {A : Type} (p : A -> bool) (l : list A) c t :
  filter p l = c :: t -> exists pre post, l = (pre ++ c :: post)%list /\ Forall (fun x => p x = false) pre.
Proof.
  induction l as [|x r IH]; cbn; [discriminate|]. destruct (p x) eqn:Hp.
  - intros H. injection H as <- _. exists [], r. split; [reflexivity|constructor].
  - intros H. destruct (IH H) as [pre [post [-> Hf]]]. exists (x :: pre), post.
    split; [reflexivity|]. now constructor.
Qed.

(** [_pick_inline_logo_svg] answers [None] when no [<svg>] has 'logo' in its
    class, id or aria-label, and otherwise the first such candidate, in
    document order, among those of the highest [svg_score]. *)
Theorem pick_inline_logo_svg_first_best (doc : node) :
  let candidates := filter (fun svg => is_logo_svg (attrs_of (snd svg))) (find_all "svg" doc) in
  (candidates = [] /\ _pick_inline_logo_svg doc = None) \/
  exists pre c post, candidates = (pre ++ c :: post)%list /\
    _pick_inline_logo_svg doc = Some (snd c) /\
    Forall (fun d => (svg_score d < svg_score c)%Z) pre /\
    Forall (fun d => (svg_score d <= svg_score c)%Z) post.
Proof.
  cbn zeta. unfold _pick_inline_logo_svg.
  set (cands := filter _ (find_all "svg" doc)).
  destruct cands as [|x r] eqn:Ec; [left; split; reflexivity|right].
  rewrite <- Ec.
  destruct (sort_desc_props svg_score cands) as [Hp [Hs Hf]].
  destruct (sort_desc_by svg_score cands) as [|c t] eqn:Es.
  { apply Permutation_nil in Hp. congruence. }
  assert (Hmax : forall d, In d cands -> (svg_score d <= svg_score c)%Z).
  { intros d Hd. apply (Permutation_in _ (Permutation_sym Hp)) in Hd as [<-|Hd]; [lia|].
    inversion Hs as [|? ? _ Hall]; subst. rewrite Forall_forall in Hall. now apply Hall. }
  specialize (Hf (svg_score c)). cbn [filter] in Hf. rewrite Z.eqb_refl in Hf.
  symmetry in Hf. destruct (filter_first _ _ _ _ Hf) as [pre [post [Hl Hpre]]].
  exists pre, c, post. split; [exact Hl|]. split; [reflexivity|]. split.
  - rewrite Forall_forall in Hpre |- *. intros d Hd.
    specialize (Hpre d Hd). apply Z.eqb_neq in Hpre.
    assert (svg_score d <= svg_score c)%Z by (apply Hmax; rewrite Hl; apply in_or_app; now left).
    lia.
  - apply Forall_forall. intros d Hd. apply Hmax. rewrite Hl. apply in_or_app. right. now right.
Qed.

End SvgExtras.

(* ------------------------------------------------------------------ *)
(** ** The capped stream *)

Module StreamExtras.
Import Download DownloadClaims.

Lemma stream_loop_total max cs : forall total written t w,
  stream_loop max total written cs = (t, w) ->
  ((total + zlen (concat cs) <= max)%Z -> t = (total + zlen (concat cs))%Z /\ w = (written ++ concat cs)%list) /\
  ((max < total + zlen (concat cs))%Z -> (max < t <= total + zlen (concat cs))%Z).
Proof.
  induction cs as [|c r IH]; intros total written t w Hrun.
  - cbn in Hrun. injection Hrun as <- <-. cbn. unfold zlen. cbn.
    rewrite app_nil_r. split; intros; [split; [lia|reflexivity]|lia].
  - cbn [concat]. rewrite zlen_app. pose proof (zlen_nonneg (concat r)).
    destruct c as [|b c'].
    + cbn [stream_loop] in Hrun. apply IH in Hrun as [H1 H2]. cbn [app].
      unfold zlen at 1. cbn [length Z.of_nat]. rewrite Z.add_0_l. split; assumption.
    + cbn [stream_loop] in Hrun. pose proof (zlen_nonneg (b :: c')).
      destruct (max <? total + zlen (b :: c'))%Z eqn:Hgt.
      * apply Z.ltb_lt in Hgt. injection Hrun as <- <-. split; intros; lia.
      * apply Z.ltb_ge in Hgt. apply IH in Hrun as [H1 H2]. split.
        -- intros Hle. destruct H1 as [-> ->]; [lia|]. rewrite app_assoc. split; [lia|reflexivity].
        -- intros Hlt. specialize (H2 ltac:(lia)). lia.
Qed.

(** [download_stream_capped] raises [HTTPError] exactly on a 4xx/5xx
    status and then reports nothing; otherwise, when the body fits in [max_bytes] the whole body is
    written and [bytes] is its length, and when it does not, [bytes] is
    above [max_bytes] and at most the body's length. *)
Theorem download_stream_capped_outcome (get : server) (url : string) (out : path)
    (max_b : Z) (r : response) :
  get url (Some (max_b - 1)%Z) = inr r ->
  let body := concat (chunks r) in
  match download_stream_capped get url out max_b with
  | inl e => e = "HTTPError" /\ (400 <= status_code r < 600)%Z
  | inr (fr, file) =>
      ~ (400 <= status_code r < 600)%Z /\
      requested_url fr = url /\ fr_path fr = out /\ status fr = status_code r /\
      capped fr = Some true /\ max_bytes fr = Some max_b /\
      ((zlen body <= max_b)%Z -> file = body /\ bytes fr = zlen body) /\
      ((max_b < zlen body)%Z -> (max_b < bytes fr <= zlen body)%Z)
  end.
Proof.
  intros Hget. cbn zeta. unfold download_stream_capped. rewrite Hget.
  unfold raise_for_status.
  destruct ((400 <=? status_code r)%Z && (status_code r <? 600)%Z) eqn:Hs.
  - apply andb_true_iff in Hs as [H1 H2]. apply Z.leb_le in H1. apply Z.ltb_lt in H2. split; [reflexivity|lia].
  - destruct (stream_loop max_b 0 [] (chunks r)) as [t w] eqn:Hrun.
    apply stream_loop_total in Hrun as [H1 H2]. cbn.
    split; [apply andb_false_iff in Hs as [Hs|Hs];
            [apply Z.leb_gt in Hs|apply Z.ltb_ge in Hs]; lia|].
    do 5 (split; [reflexivity|]). split.
    + intros Hle. destruct H1 as [-> ->]; [lia|]. split; reflexivity.
    + intros Hlt. specialize (H2 ltac:(lia)). lia.
Qed.

Lemma download_stream_capped_outcome_witness :
  two_byte_server "https://acme.com/clip.mp4" (Some (1 - 1)%Z) =
    inr {| status_code := 200; final_url := "https://acme.com/clip.mp4";
           content_type_header := Some "video/mp4"; chunks := [[Byte.x00; Byte.x01]] |} /\
  (1 < 2 <= 2)%Z.
Proof.
  split; [reflexivity|].
  pose proof (download_stream_capped_outcome two_byte_server "https://acme.com/clip.mp4" (VidTmp 0) 1
                _ eq_refl) as H.
  cbn zeta in H. cbn in H. destruct H as [_ [_ [_ [_ [_ [_ [_ H]]]]]]]. apply H. unfold zlen. cbn. lia.
Defined.

End StreamExtras.

(* ------------------------------------------------------------------ *)
(** ** The download loops of [scrape_brand_report] *)

Module DownloadLoopFacts.
Import Download Orchestrator DownloadShape.

Lemma download_requested get url p fr c :
  download get url p = inr (fr, c) -> requested_url fr = url.
Proof.
  unfold download. destruct (get url None) as [e|r]; [discriminate|].
  destruct (raise_for_status r); [discriminate|]. intros H. now injection H as <- _.
Qed.

Lemma download_stream_capped_requested get url p m fr c :
  download_stream_capped get url p m = inr (fr, c) -> requested_url fr = url.
Proof.
  unfold download_stream_capped. destruct (get url _) as [e|r]; [discriminate|].
  destruct (raise_for_status r); [discriminate|].
  destruct (stream_loop _ _ _ _). intros H. now injection H as <- _.
Qed.

Lemma set_palette_nodup (l : list (string * (path * option string))) u v :
  NoDup (map fst l) ->
  NoDup (map fst (filter (fun kv => negb (String.eqb (fst kv) u)) l ++ [(u, v)])%list).
Proof.
  induction l as [|[k w] r IH]; intros Hn; cbn; [repeat constructor; auto|].
  inversion Hn as [|? ? Hk Hr]; subst.
  destruct (String.eqb_spec k u) as [->|Hne]; cbn; [now apply IH|].
  constructor; [|now apply IH]. rewrite map_app, in_app_iff. intros [H|[H|[]]].
  - apply Hk. apply in_map_iff in H as [[k' w'] [Hk' Hin]]. cbn in Hk'. subst k'.
    apply filter_In in Hin as [Hin _]. apply in_map_iff. now exists (k, w').
  - cbn in H. congruence.
Qed.

Lemma palette_backed_app imgs b k v :
  palette_backed imgs k v -> palette_backed (imgs ++ b) k v.
Proof.
  intros [e [i [ext [Hin H]]]]. exists e, i, ext. split; [apply in_or_app; now left|exact H].
Qed.

Lemma image_iter E idx u s s' r :
  try_except (image_body E idx u) (fun e => modify (push_image (error_entry u e))) s = (s', r) ->
  r = inr tt /\ downloaded_videos s' = downloaded_videos s /\
  exists b, downloaded_images s' = (downloaded_images s ++ b)%list /\ image_block idx u b /\
    (palettes_by_image_url s' = palettes_by_image_url s \/
     exists e ext pal, In e b /\ e_ok e = true /\ e_requested_url e = u /\
       mem ext RASTER_EXTS = true /\ option_map fr_path (e_meta e) = Some (ImgFinal idx ext) /\
       palettes_by_image_url s' =
         (filter (fun kv => negb (String.eqb (fst kv) u)) (palettes_by_image_url s) ++
          [(u, (ImgFinal idx ext, pal))])%list).
Proof.
  unfold try_except, image_body, bind, lift, modify.
  destruct (download (http_get E) u (ImgTmp idx)) as [err|[meta c]] eqn:Hd.
  - intros H. injection H as <- <-. split; [reflexivity|]. split; [reflexivity|].
    exists [error_entry u err]. split; [reflexivity|]. split; [|now left].
    left. exists (error_entry u err). split; [reflexivity|]. split; [reflexivity|]. discriminate.
  - apply download_requested in Hd. cbn [fst].
    destruct (ContentType.guess_ext_from_content_type _ _) as [ext|].
    2:{ intros H. injection H as <- <-. split; [reflexivity|]. split; [reflexivity|].
        eexists. split; [reflexivity|]. split; [|now left].
        left. eexists. split; [reflexivity|]. split; [exact Hd|]. discriminate. }
    destruct (replace_file E (ImgTmp idx) (ImgFinal idx ext)) as [err|[]].
    { intros H. injection H as <- <-. split; [reflexivity|]. split; [reflexivity|].
      exists [error_entry u err]. split; [reflexivity|]. split; [|now left].
      left. exists (error_entry u err). split; [reflexivity|]. split; [reflexivity|]. discriminate. }
    set (ok := meta_entry (with_path meta (ImgFinal idx ext)) true None).
    assert (Hok : e_ok ok = true /\ e_requested_url ok = u /\
                  option_map fr_path (e_meta ok) = Some (ImgFinal idx ext)) by (cbn; auto).
    destruct (mem ext RASTER_EXTS) eqn:Hr.
    + destruct (node_palette E (ImgFinal idx ext)) as [err|pal].
      * intros H. injection H as <- <-. split; [reflexivity|]. split; [reflexivity|].
        exists [ok; error_entry u err]. split; [cbn; now rewrite <- app_assoc|]. split; [|now left].
        right. exists ok, err. destruct Hok as [H1 [H2 H3]].
        split; [reflexivity|]. split; [exact H1|]. split; [exact H2|]. exists ext. auto.
      * intros H. injection H as <- <-. split; [reflexivity|]. split; [reflexivity|].
        exists [ok]. split; [reflexivity|]. destruct Hok as [H1 [H2 H3]]. split.
        -- left. exists ok. split; [reflexivity|]. split; [exact H2|]. intros _. now exists ext.
        -- right. exists ok, ext, pal. split; [now left|]. auto.
    + intros H. injection H as <- <-. split; [reflexivity|]. split; [reflexivity|].
      exists [ok]. split; [reflexivity|]. destruct Hok as [H1 [H2 H3]]. split; [|now left].
      left. exists ok. split; [reflexivity|]. split; [exact H2|]. intros _. now exists ext.
Qed.

Lemma image_loop_shape E top urls : forall idx s s' r,
  image_loop E idx urls s = (s', r) ->
  (forall u, In u urls -> In u top) -> pal_inv top s ->
  r = inr tt /\ downloaded_videos s' = downloaded_videos s /\ pal_inv top s' /\
  exists blocks, length blocks = length urls /\
    downloaded_images s' = (downloaded_images s ++ concat blocks)%list /\
    forall i u b, nth_error urls i = Some u -> nth_error blocks i = Some b -> image_block (idx + i) u b.
Proof.
  induction urls as [|u rest IH]; intros idx s s' r Hrun Htop Hinv.
  - cbn in Hrun. injection Hrun as <- <-. split; [reflexivity|]. split; [reflexivity|].
    split; [exact Hinv|]. exists []. split; [reflexivity|]. split; [now rewrite app_nil_r|].
    intros i u b Hu. destruct i; discriminate.
  - cbn [image_loop] in Hrun. unfold bind at 1 in Hrun.
    destruct (try_except _ _ s) as [s1 r1] eqn:Hit.
    apply image_iter in Hit as [-> [Hv1 [b [Hi1 [Hblk Hpal]]]]].
    assert (Hinv1 : pal_inv top s1).
    { unfold pal_inv in Hinv |- *. destruct Hinv as [Hnd Hk]. destruct Hpal as [Hp|[e [ext [pal [Hin [Hok [Hreq [Hr [Hpath Hp]]]]]]]]].
      - split; [now rewrite Hp|]. intros k v Hkv. rewrite Hp in Hkv.
        destruct (Hk k v Hkv) as [Ht Hb]. split; [exact Ht|]. rewrite Hi1. now apply palette_backed_app.
      - rewrite Hp. split; [now apply set_palette_nodup|].
        intros k v Hkv. apply in_app_or in Hkv as [Hkv|[Hkv|[]]].
        + apply filter_In in Hkv as [Hkv _]. destruct (Hk k v Hkv) as [Ht Hb].
          split; [exact Ht|]. rewrite Hi1. now apply palette_backed_app.
        + injection Hkv as <- <-. split; [apply Htop; now left|].
          exists e, idx, ext. rewrite Hi1. split; [apply in_or_app; now right|]. auto. }
    destruct (IH (S idx) s1 s' r Hrun (fun x Hx => Htop x (or_intror Hx)) Hinv1)
      as [Hr [Hv2 [Hinv2 [blocks [Hlen [Hi2 Hnth]]]]]].
    split; [exact Hr|]. split; [congruence|]. split; [exact Hinv2|].
    exists (b :: blocks). split; [cbn; now rewrite Hlen|]. split.
    + rewrite Hi2, Hi1. cbn [concat]. now rewrite app_assoc.
    + intros [|i] x bb Hx Hb; cbn in Hx, Hb.
      * injection Hx as <-. injection Hb as <-. now rewrite Nat.add_0_r.
      * rewrite Nat.add_succ_r. exact (Hnth i x bb Hx Hb).
Qed.

Lemma video_iter E i u s s' r :
  try_except (video_body E i u) (fun e => modify (push_video (error_entry u e))) s = (s', r) ->
  r = inr tt /\ downloaded_images s' = downloaded_images s /\
  palettes_by_image_url s' = palettes_by_image_url s /\
  exists e, downloaded_videos s' = (downloaded_videos s ++ [e])%list /\ video_entry i u e.
Proof.
  unfold try_except, video_body, bind, lift, modify.
  destruct (download_stream_capped _ u (VidTmp i) VIDEO_MAX_BYTES) as [err|[meta c]] eqn:Hd.
  - intros H. injection H as <- <-. do 3 (split; [reflexivity|]).
    exists (error_entry u err). split; [reflexivity|]. split; [reflexivity|discriminate].
  - apply download_stream_capped_requested in Hd. cbn [fst].
    destruct (ContentType.guess_ext_from_content_type _ _) as [ext|].
    + destruct (replace_file E (VidTmp i) (VidFinal i ext)) as [err|[]].
      * intros H. injection H as <- <-. do 3 (split; [reflexivity|]).
        exists (error_entry u err). split; [reflexivity|]. split; [reflexivity|discriminate].
      * intros H. injection H as <- <-. do 3 (split; [reflexivity|]).
        eexists. split; [reflexivity|]. split; [exact Hd|]. intros _. now exists ext.
    + intros H. injection H as <- <-. do 3 (split; [reflexivity|]).
      eexists. split; [reflexivity|]. split; [exact Hd|]. discriminate.
Qed.

Lemma video_loop_shape E urls : forall i s s' r,
  video_loop E i urls s = (s', r) ->
  r = inr tt /\ downloaded_images s' = downloaded_images s /\
  palettes_by_image_url s' = palettes_by_image_url s /\
  exists es, length es = length urls /\ downloaded_videos s' = (downloaded_videos s ++ es)%list /\
    forall j u e, nth_error urls j = Some u -> nth_error es j = Some e -> video_entry (i + j) u e.
Proof.
  induction urls as [|u rest IH]; intros i s s' r Hrun.
  - cbn in Hrun. injection Hrun as <- <-. do 3 (split; [reflexivity|]).
    exists []. split; [reflexivity|]. split; [now rewrite app_nil_r|]. intros [|j]; discriminate.
  - cbn [video_loop] in Hrun. unfold bind at 1 in Hrun.
    destruct (try_except _ _ s) as [s1 r1] eqn:Hit.
    apply video_iter in Hit as [-> [Hi1 [Hp1 [e [Hv1 He]]]]].
    destruct (IH (S i) s1 s' r Hrun) as [Hr [Hi2 [Hp2 [es [Hlen [Hv2 Hnth]]]]]].
    split; [exact Hr|]. split; [congruence|]. split; [congruence|].
    exists (e :: es). split; [cbn; now rewrite Hlen|]. split.
    + rewrite Hv2, Hv1, <- app_assoc. reflexivity.
    + intros [|j] x ee Hx Hee; cbn in Hx, Hee.
      * injection Hx as <-. injection Hee as <-. now rewrite Nat.add_0_r.
      * rewrite Nat.add_succ_r. exact (Hnth j x ee Hx Hee).
Qed.

End DownloadLoopFacts.

Module DownloadLoopExtras.
Import Download Orchestrator DownloadShape DownloadLoopFacts.

(** Steps [6/8] and [7/8] of [scrape_brand_report] never raise. The image
    entries are, in order, one block per chosen image URL: one entry, or two
    (a raster success followed by its palette error); every entry names its
    URL and a success sits at [img_<idx>.<ext>]. The video entries are
    exactly one per chosen video URL, in order, a success at
    [video_<idx>.<ext>]. Every palette key is a chosen image URL, stored once,
    whose success entry is recorded with a raster extension at the palette's
    path. *)
Theorem download_assets_shape (E : env) (image_urls video_urls : list string) :
  let top_images := choose_top_images image_urls MAX_IMAGES_TO_DOWNLOAD in
  let top_videos := choose_top_videos video_urls MAX_VIDEOS_TO_DOWNLOAD in
  let '(s, r) := download_assets E image_urls video_urls in
  r = inr tt /\
  (exists blocks, length blocks = length top_images /\ downloaded_images s = concat blocks /\
     forall i u b, nth_error top_images i = Some u -> nth_error blocks i = Some b -> image_block i u b) /\
  length (downloaded_videos s) = length top_videos /\
  (forall i u e, nth_error top_videos i = Some u -> nth_error (downloaded_videos s) i = Some e ->
     video_entry i u e) /\
  NoDup (map fst (palettes_by_image_url s)) /\
  (forall k v, In (k, v) (palettes_by_image_url s) ->
     In k top_images /\ palette_backed (downloaded_images s) k v).
Proof.
  cbn zeta. unfold download_assets, bind at 1.
  destruct (image_loop E 0 _ empty_state) as [s1 r1] eqn:Hi.
  apply (image_loop_shape E (choose_top_images image_urls MAX_IMAGES_TO_DOWNLOAD)) in Hi
    as [-> [Hv1 [Hinv1 [blocks [Hlen [Hi1 Hnth]]]]]];
    [|intros u Hu; exact Hu|split; [constructor|intros k v []]].
  destruct (video_loop E 0 _ s1) as [s2 r2] eqn:Hv.
  apply video_loop_shape in Hv as [-> [Hi2 [Hp2 [es [Hlen' [Hv2 Hnth']]]]]].
  rewrite Hv1 in Hv2. cbn in Hv2. destruct Hinv1 as [Hnd Hk].
  split; [reflexivity|]. split.
  - exists blocks. split; [exact Hlen|]. split; [rewrite Hi2, Hi1; reflexivity|].
    intros i u b. exact (Hnth i u b).
  - rewrite Hv2. split; [exact Hlen'|]. split; [intros i u e; exact (Hnth' i u e)|].
    rewrite Hp2, Hi2. split; [exact Hnd|exact Hk].
Qed.

End DownloadLoopExtras.

(* ------------------------------------------------------------------ *)
(** ** Luminance and contrast *)

Module LuminanceExtras.
Import Contrast.
Local Open Scope Q_scope.

Section Pow.
Variable pow24 : Q -> Q.
Hypothesis pow24_unit : forall x, 0 <= x <= 1 -> 0 <= pow24 x <= 1.

Lemma srgb_to_linear_unit c : 0 <= c <= 255 -> 0 <= _srgb_to_linear pow24 c <= 1.
Proof.
  intros Hc. unfold _srgb_to_linear.
  change (c / 255) with (c * (1 # 255)).
  destruct (Qle_bool (c * (1 # 255)) (4045 # 100000)) eqn:E.
  - change (c * (1 # 255) / (1292 # 100)) with (c * (1 # 255) * (100 # 1292)). lra.
  - apply pow24_unit.
    change ((c * (1 # 255) + (55 # 1000)) / (1055 # 1000))
      with ((c * (1 # 255) + (55 # 1000)) * (1000 # 1055)). lra.
Qed.

Lemma relative_luminance_unit r g b :
  (0 <= r <= 255)%Z -> (0 <= g <= 255)%Z -> (0 <= b <= 255)%Z ->
  0 <= relative_luminance pow24 (r, g, b) <= 1.
Proof.
  intros Hr Hg Hb. unfold relative_luminance.
  assert (Z01 : forall z, (0 <= z <= 255)%Z -> 0 <= inject_Z z <= 255).
  { intros z Hz. split.
    - change 0 with (inject_Z 0). rewrite <- Zle_Qle. lia.
    - change 255 with (inject_Z 255). rewrite <- Zle_Qle. lia. }
  pose proof (srgb_to_linear_unit _ (Z01 r Hr)).
  pose proof (srgb_to_linear_unit _ (Z01 g Hg)).
  pose proof (srgb_to_linear_unit _ (Z01 b Hb)). lra.
Qed.

End Pow.

Lemma ratio_between lo hi : 0 <= lo -> lo <= hi -> hi <= 1 ->
  1 <= (hi + (5 # 100)) / (lo + (5 # 100)) <= 21.
Proof.
  intros H0 H1 H2. split.
  - apply Qle_shift_div_l; lra.
  - apply Qle_shift_div_r; lra.
Qed.

(** [contrast_ratio] is symmetric, is 1 for a colour against itself, lies
    between 1 and 21 for colours with components in [0, 255], and is 21 for
    black against white; [x ** 2.4] is only assumed to be a function of
    the value, to map [0, 1] into itself and 1 to 1. *)
Theorem contrast_ratio_bounds (pow24 : Q -> Q)
    (Hval : forall x y, x == y -> pow24 x == pow24 y)
    (Hpow : forall x, 0 <= x <= 1 -> 0 <= pow24 x <= 1) (Hone : pow24 1 == 1)
    (r1 g1 b1 r2 g2 b2 : Z) :
  (0 <= r1 <= 255)%Z -> (0 <= g1 <= 255)%Z -> (0 <= b1 <= 255)%Z ->
  (0 <= r2 <= 255)%Z -> (0 <= g2 <= 255)%Z -> (0 <= b2 <= 255)%Z ->
  contrast_ratio pow24 (r1, g1, b1) (r2, g2, b2) == contrast_ratio pow24 (r2, g2, b2) (r1, g1, b1) /\
  contrast_ratio pow24 (r1, g1, b1) (r1, g1, b1) == 1 /\
  1 <= contrast_ratio pow24 (r1, g1, b1) (r2, g2, b2) <= 21 /\
  contrast_ratio pow24 (0, 0, 0)%Z (255, 255, 255)%Z == 21.
Proof.
  intros Hr1 Hg1 Hb1 Hr2 Hg2 Hb2.
  pose proof (relative_luminance_unit pow24 Hpow r1 g1 b1 Hr1 Hg1 Hb1) as L1.
  pose proof (relative_luminance_unit pow24 Hpow r2 g2 b2 Hr2 Hg2 Hb2) as L2.
  unfold contrast_ratio.
  set (x := relative_luminance pow24 (r1, g1, b1)) in *.
  set (y := relative_luminance pow24 (r2, g2, b2)) in *.
  split; [|split; [|split]].
  - rewrite (Q.max_comm x y), (Q.min_comm x y). reflexivity.
  - rewrite Q.max_id, Q.min_id. apply Qmult_inv_r. lra.
  - destruct (Q.max_spec x y) as [[Hm Em]|[Hm Em]]; destruct (Q.min_spec x y) as [[Hn En]|[Hn En]];
      rewrite Em, En; apply ratio_between; lra.
  - assert (Hb : relative_luminance pow24 (0, 0, 0)%Z == 0).
    { unfold relative_luminance, _srgb_to_linear. cbn. reflexivity. }
    assert (Hw : relative_luminance pow24 (255, 255, 255)%Z == 1).
    { unfold relative_luminance, _srgb_to_linear.
      change (Qle_bool (inject_Z 255 / 255) (4045 # 100000)) with false. cbv iota.
      assert (E : (inject_Z 255 / 255 + (55 # 1000)) / (1055 # 1000) == 1) by reflexivity.
      rewrite (Hval _ _ E), Hone. reflexivity. }
    rewrite Hb, Hw. reflexivity.
Qed.

Lemma contrast_ratio_bounds_witness :
  1 <= contrast_ratio (fun x => x) (0, 0, 0)%Z (255, 255, 255)%Z <= 21.
Proof.
  assert (Hpow : forall x, 0 <= x <= 1 -> 0 <= (fun x : Q => x) x <= 1) by (intros x Hx; exact Hx).
  exact (proj1 (proj2 (proj2 (contrast_ratio_bounds (fun x => x) (fun x y H => H) Hpow (Qeq_refl 1)
            0 0 0 255 255 255 ltac:(lia) ltac:(lia) ltac:(lia) ltac:(lia) ltac:(lia) ltac:(lia))))).
Defined.

End LuminanceExtras.

(* ------------------------------------------------------------------ *)
(** ** [_same_domain] on https URLs *)

Module SameDomainExtras.
Import Extract.

Lemma take_netloc_app h p :
  (forall c, In c (list_ascii_of_string h) -> ~ In c Url.netloc_delims) ->
  (p = "" \/ startswith "/" p = true) ->
  Url.take_netloc (h ++ p) = (h, p).
Proof.
  intros Hh Hp. induction h as [|c h IH]; cbn [append].
  - destruct Hp as [->|Hp]; [reflexivity|].
    destruct p as [|c r]; [reflexivity|]. unfold startswith in Hp. cbn [String.prefix] in Hp.
    destruct (ascii_dec "/" c) as [<-|]; [reflexivity|discriminate].
  - cbn [Url.take_netloc].
    assert (Hc : ~ In c Url.netloc_delims) by (apply Hh; now left).
    assert (E : (Ascii.eqb c "/" || Ascii.eqb c "?" || Ascii.eqb c "#")%bool = false).
    { destruct (Ascii.eqb_spec c "/"); [subst; exfalso; apply Hc; now left|].
      destruct (Ascii.eqb_spec c "?"); [subst; exfalso; apply Hc; right; now left|].
      destruct (Ascii.eqb_spec c "#"); [subst; exfalso; apply Hc; right; right; now left|].
      reflexivity. }
    rewrite E, IH; [reflexivity|]. intros d Hd. apply Hh. now right.
Qed.

Lemma contains_char_absent c h : ~ In c (list_ascii_of_string h) -> contains (String c "") h = false.
Proof.
  induction h as [|d h IH]; intros Hn; [reflexivity|].
  cbn [contains String.prefix]. destruct (ascii_dec c d) as [->|Hne].
  - exfalso. apply Hn. now left.
  - apply IH. intros H. apply Hn. now right.
Qed.

Lemma remove_unsafe_app a b :
  Url.remove_unsafe (a ++ b) = (Url.remove_unsafe a ++ Url.remove_unsafe b)%string.
Proof.
  induction a as [|c a IH]; [reflexivity|]. cbn [append Url.remove_unsafe].
  destruct (Url.is_unsafe c); [exact IH|now rewrite IH].
Qed.

Lemma remove_unsafe_In c h :
  In c (list_ascii_of_string (Url.remove_unsafe h)) -> In c (list_ascii_of_string h).
Proof.
  induction h as [|d h IH]; cbn [Url.remove_unsafe list_ascii_of_string]; [tauto|].
  destruct (Url.is_unsafe d); cbn [list_ascii_of_string In].
  - intros H. right. auto.
  - intros [H|H]; [now left|right; auto].
Qed.

Lemma remove_unsafe_path p : (p = "" \/ startswith "/" p = true) ->
  (Url.remove_unsafe p = "" \/ startswith "/" (Url.remove_unsafe p) = true).
Proof.
  intros [->|Hp]; [now left|right]. destruct p as [|c r]; [discriminate|].
  unfold startswith in Hp. cbn [String.prefix] in Hp.
  destruct (ascii_dec "/" c) as [<-|]; [|discriminate].
  unfold startswith. cbn [Url.remove_unsafe]. change (Url.is_unsafe "/") with false.
  cbn [String.prefix]. destruct (ascii_dec "/" "/") as [_|n]; [|now contradiction n].
  now destruct (Url.remove_unsafe r).
Qed.

Lemma netloc_https h p :
  (forall c, In c (list_ascii_of_string h) -> ~ In c Url.netloc_delims) ->
  (p = "" \/ startswith "/" p = true) ->
  Url.netloc ("https://" ++ h ++ p) = Some (Url.remove_unsafe h).
Proof.
  intros Hh Hp. unfold Url.netloc.
  assert (Hs : Url.sanitize ("https://" ++ h ++ p) =
               ("https://" ++ (Url.remove_unsafe h ++ Url.remove_unsafe p))%string).
  { unfold Url.sanitize.
    change (Url.lstrip_c0 ("https://" ++ h ++ p)) with ("https://" ++ (h ++ p))%string.
    rewrite <- remove_unsafe_app. reflexivity. }
  rewrite Hs.
  set (h' := Url.remove_unsafe h). set (p' := Url.remove_unsafe p).
  assert (Hh' : forall c, In c (list_ascii_of_string h') -> ~ In c Url.netloc_delims)
    by (intros c Hc; apply Hh; now apply remove_unsafe_In).
  assert (Hp' : p' = "" \/ startswith "/" p' = true) by now apply remove_unsafe_path.
  assert (Hsc : Url.split_scheme ("https://" ++ (h' ++ p')) = (Some "https", "//" ++ (h' ++ p')))
    by reflexivity.
  assert (Hn : Url.split_netloc ("//" ++ (h' ++ p')) = Url.take_netloc (h' ++ p')) by reflexivity.
  rewrite Hsc. cbn [snd]. rewrite Hn, (take_netloc_app h' p' Hh' Hp'). cbn [fst].
  rewrite !contains_char_absent; [reflexivity| |];
    intros H; apply (Hh' _ H); cbn; tauto.
Qed.

Lemma plain_host_spec h : Url.plain_host h = true ->
  forall c, In c (list_ascii_of_string h) -> ~ In c Url.netloc_delims.
Proof.
  unfold Url.plain_host. rewrite forallb_forall. intros H c Hc Hd.
  specialize (H c Hc). apply negb_true_iff in H.
  assert (existsb (Ascii.eqb c) Url.netloc_delims = true)
    by (apply existsb_exists; exists c; split; [exact Hd|apply Ascii.eqb_refl]).
  congruence.
Qed.

(** On [https://host/path] URLs whose hosts have no [/], [?], [#] or
    brackets, [_same_domain] compares the hosts only, after [urlsplit] has
    deleted their tabs, CRs and LFs: lower-cased, with every [www.]
    removed, the asset's host must end with the base's (a plain suffix
    test, so [notacme.com] counts as [acme.com]). *)
Theorem same_domain_https (h b p q : string) :
  Url.plain_host h = true -> Url.plain_host b = true -> Url.remove_unsafe h <> "" ->
  (p = "" \/ startswith "/" p = true) -> (q = "" \/ startswith "/" q = true) ->
  _same_domain ("https://" ++ h ++ p) ("https://" ++ b ++ q) =
    endswith (replace_www (lower (Url.remove_unsafe b))) (replace_www (lower (Url.remove_unsafe h))).
Proof.
  intros Hh Hb Hne Hp Hq. unfold _same_domain.
  rewrite (netloc_https h p (plain_host_spec h Hh) Hp), (netloc_https b q (plain_host_spec b Hb) Hq).
  destruct (String.eqb_spec (Url.remove_unsafe h) "") as [E|_]; [contradiction|reflexivity].
Qed.

Lemma same_domain_https_witness :
  _same_domain "https://www.Shop.acme.com/a.png" "https://acme.com/" = true /\
  _same_domain "https://notacme.com/a.png" "https://www.acme.com/" = true /\
  _same_domain "https://acme.com.evil.io/a.png" "https://acme.com/" = false /\
  _same_domain ("https://ac" ++ String (ascii_of_nat 9) "me.com/x") "https://acme.com/" = true.
Proof.
  split; [|split; [|split]].
  - etransitivity; [exact (same_domain_https "www.Shop.acme.com" "acme.com" "/a.png" "/" eq_refl eq_refl
                               ltac:(vm_compute; discriminate) (or_intror eq_refl) (or_intror eq_refl))|].
    reflexivity.
  - etransitivity; [exact (same_domain_https "notacme.com" "www.acme.com" "/a.png" "/" eq_refl eq_refl
                               ltac:(vm_compute; discriminate) (or_intror eq_refl) (or_intror eq_refl))|].
    reflexivity.
  - etransitivity; [exact (same_domain_https "acme.com.evil.io" "acme.com" "/a.png" "/" eq_refl eq_refl
                               ltac:(vm_compute; discriminate) (or_intror eq_refl) (or_intror eq_refl))|].
    reflexivity.
  - etransitivity; [exact (same_domain_https ("ac" ++ String (ascii_of_nat 9) "me.com") "acme.com" "/x" "/"
                               eq_refl eq_refl ltac:(vm_compute; discriminate)
                               (or_intror eq_refl) (or_intror eq_refl))|].
    reflexivity.
Defined.

End SameDomainExtras.

(* ------------------------------------------------------------------ *)
(** ** The image loop of src/zenrows_scraper/run_brand_scrape.py *)

Module ImageLoopV1Facts.
Import Download Orchestrator DownloadLoopFacts ImageLoopV1.

Lemma download_bytes get url p fr c :
  download get url p = inr (fr, c) -> requested_url fr = url /\ (0 <= bytes fr)%Z.
Proof.
  unfold download. destruct (get url None) as [e|r]; [discriminate|].
  destruct (raise_for_status r); [discriminate|]. intros H. injection H as <- _.
  split; [reflexivity|]. cbn. unfold zlen. lia.
Qed.

Lemma set_palette_keeps (l : list (string * (path * option string))) u w k v :
  In (k, v) l -> exists v', In (k, v') (filter (fun kv => negb (String.eqb (fst kv) u)) l ++ [(u, w)])%list.
Proof.
  intros H. destruct (String.eqb_spec k u) as [->|Hne].
  - exists w. apply in_or_app. right. now left.
  - exists v. apply in_or_app. left. apply filter_In. split; [exact H|].
    cbn. destruct (String.eqb_spec k u); [contradiction|reflexivity].
Qed.

Lemma image_iter_v1 E idx u s s' r :
  try_except (image_body_v1 E idx u) (fun e => modify (push_image (error_entry u e))) s = (s', r) ->
  r = inr tt /\
  exists b, downloaded_images s' = (downloaded_images s ++ b)%list /\ image_block_v1 idx u b /\
    ((palettes_by_image_url s' = palettes_by_image_url s /\ forall e, b = [e] -> e_ok e = false) \/
     exists e ext pal, b = [e] /\ e_ok e = true /\ e_requested_url e = u /\ ok_v1 idx e /\
       option_map fr_path (e_meta e) = Some (ImgFinal idx ext) /\
       palettes_by_image_url s' =
         (filter (fun kv => negb (String.eqb (fst kv) u)) (palettes_by_image_url s) ++
          [(u, (ImgFinal idx ext, pal))])%list).
Proof.
  unfold try_except, image_body_v1, bind, lift, modify.
  destruct (download (http_get E) u (ImgTmp idx)) as [err|[meta c]] eqn:Hd.
  - intros H. injection H as <- <-. split; [reflexivity|].
    exists [error_entry u err]. split; [reflexivity|]. split.
    + left. exists (error_entry u err). split; [reflexivity|]. split; [reflexivity|]. discriminate.
    + left. split; [reflexivity|]. intros e He. injection He as <-. reflexivity.
  - apply download_bytes in Hd as [Hreq Hb]. cbn [fst].
    assert (Hunsup : forall s' r, (push_image (meta_entry meta false (Some "unsupported_content_type")) s, @inr string unit tt) = (s', r) ->
      r = inr tt /\
      exists b, downloaded_images s' = (downloaded_images s ++ b)%list /\ image_block_v1 idx u b /\
        ((palettes_by_image_url s' = palettes_by_image_url s /\ forall e, b = [e] -> e_ok e = false) \/
         exists e ext pal, b = [e] /\ e_ok e = true /\ e_requested_url e = u /\ ok_v1 idx e /\
           option_map fr_path (e_meta e) = Some (ImgFinal idx ext) /\
           palettes_by_image_url s' =
             (filter (fun kv => negb (String.eqb (fst kv) u)) (palettes_by_image_url s) ++
              [(u, (ImgFinal idx ext, pal))])%list)).
    { intros s0 r0 H. injection H as <- <-. split; [reflexivity|]. eexists. split; [reflexivity|]. split.
      - left. eexists. split; [reflexivity|]. split; [exact Hreq|]. discriminate.
      - left. split; [reflexivity|]. intros e He. injection He as <-. reflexivity. }
    destruct (ContentType.lookup (content_type meta) SUPPORTED_CT) as [ext|] eqn:Hct; [|exact (Hunsup s' r)].
    destruct (bytes meta =? 0)%Z eqn:Hz; [exact (Hunsup s' r)|]. apply Z.eqb_neq in Hz.
    set (ok := meta_entry (with_path meta (ImgFinal idx ext)) true None).
    assert (Hok : e_ok ok = true /\ e_requested_url ok = u /\ ok_v1 idx ok /\
                  option_map fr_path (e_meta ok) = Some (ImgFinal idx ext)).
    { split; [reflexivity|]. split; [exact Hreq|]. split; [|reflexivity].
      exists (with_path meta (ImgFinal idx ext)), ext. cbn. split; [reflexivity|].
      split; [lia|]. split; [exact Hct|reflexivity]. }
    destruct (replace_file E (ImgTmp idx) (ImgFinal idx ext)) as [err|[]].
    { intros H. injection H as <- <-. split; [reflexivity|].
      exists [error_entry u err]. split; [reflexivity|]. split.
      - left. exists (error_entry u err). split; [reflexivity|]. split; [reflexivity|]. discriminate.
      - left. split; [reflexivity|]. intros e He. injection He as <-. reflexivity. }
    destruct Hok as [H1 [H2 [H3 H4]]].
    destruct (node_palette E (ImgFinal idx ext)) as [err|pal].
    + intros H. injection H as <- <-. split; [reflexivity|].
      exists [ok; error_entry u err]. split; [cbn; now rewrite <- app_assoc|]. split.
      * right. exists ok, err. auto.
      * left. split; [reflexivity|]. intros e He. discriminate.
    + intros H. injection H as <- <-. split; [reflexivity|].
      exists [ok]. split; [reflexivity|]. split.
      * left. exists ok. auto.
      * right. exists ok, ext, pal. split; [reflexivity|]. auto.
Qed.

Lemma image_loop_v1_shape E top urls : forall idx s s' r,
  image_loop_v1 E idx urls s = (s', r) ->
  (forall u, In u urls -> In u top) -> pal_inv_v1 top s ->
  r = inr tt /\ pal_inv_v1 top s' /\
  (forall k v, In (k, v) (palettes_by_image_url s) -> exists v', In (k, v') (palettes_by_image_url s')) /\
  exists blocks, length blocks = length urls /\
    downloaded_images s' = (downloaded_images s ++ concat blocks)%list /\
    forall i u b, nth_error urls i = Some u -> nth_error blocks i = Some b ->
      image_block_v1 (idx + i) u b /\
      (forall e, b = [e] -> e_ok e = true -> exists v, In (u, v) (palettes_by_image_url s')).
Proof.
  induction urls as [|u rest IH]; intros idx s s' r Hrun Htop Hinv.
  - cbn in Hrun. injection Hrun as <- <-. split; [reflexivity|]. split; [exact Hinv|].
    split; [intros k v H; now exists v|].
    exists []. split; [reflexivity|]. split; [now rewrite app_nil_r|].
    intros i u b Hu. destruct i; discriminate.
  - cbn [image_loop_v1] in Hrun. unfold bind at 1 in Hrun.
    destruct (try_except _ _ s) as [s1 r1] eqn:Hit.
    apply image_iter_v1 in Hit as [-> [b [Hi1 [Hblk Hpal]]]].
    assert (Hinv1 : pal_inv_v1 top s1 /\
      (forall k v, In (k, v) (palettes_by_image_url s) -> exists v', In (k, v') (palettes_by_image_url s1)) /\
      (forall e, b = [e] -> e_ok e = true -> exists v, In (u, v) (palettes_by_image_url s1))).
    { unfold pal_inv_v1 in Hinv |- *. destruct Hinv as [Hnd Hk].
      destruct Hpal as [[Hp Hnok]|[e [ext [pal [Hb [Hok [Hreq [Hv1 [Hpath Hp]]]]]]]]].
      - split; [split; [now rewrite Hp|]|split].
        + intros k v Hkv. rewrite Hp in Hkv. destruct (Hk k v Hkv) as [Ht [e [i [ext [Hin H]]]]].
          split; [exact Ht|]. exists e, i, ext. rewrite Hi1. split; [apply in_or_app; now left|exact H].
        + intros k v H. exists v. now rewrite Hp.
        + intros e He Hok. rewrite (Hnok e He) in Hok. discriminate.
      - rewrite Hp. split; [split; [now apply set_palette_nodup|]|split].
        + intros k v Hkv. apply in_app_or in Hkv as [Hkv|[Hkv|[]]].
          * apply filter_In in Hkv as [Hkv _]. destruct (Hk k v Hkv) as [Ht [e' [i [ext' [Hin H]]]]].
            split; [exact Ht|]. exists e', i, ext'. rewrite Hi1. split; [apply in_or_app; now left|exact H].
          * injection Hkv as <- <-. split; [apply Htop; now left|].
            exists e, idx, ext. rewrite Hi1, Hb. split; [apply in_or_app; right; now left|]. auto.
        + intros k v H. exact (set_palette_keeps _ _ _ _ _ H).
        + intros e' _ _. exists (ImgFinal idx ext, pal). apply in_or_app. right. now left. }
    destruct Hinv1 as [Hinv1 [Hkeep1 Hone1]].
    destruct (IH (S idx) s1 s' r Hrun (fun x Hx => Htop x (or_intror Hx)) Hinv1)
      as [Hr [Hinv2 [Hkeep2 [blocks [Hlen [Hi2 Hnth]]]]]].
    split; [exact Hr|]. split; [exact Hinv2|]. split.
    { intros k v H. destruct (Hkeep1 k v H) as [v' H']. exact (Hkeep2 k v' H'). }
    exists (b :: blocks). split; [cbn; now rewrite Hlen|]. split.
    + rewrite Hi2, Hi1. cbn [concat]. now rewrite app_assoc.
    + intros [|i] x bb Hx Hbb; cbn in Hx, Hbb.
      * injection Hx as <-. injection Hbb as <-. rewrite Nat.add_0_r. split; [exact Hblk|].
        intros e He Hok. destruct (Hone1 e He Hok) as [v Hv]. exact (Hkeep2 _ _ Hv).
      * rewrite Nat.add_succ_r. exact (Hnth i x bb Hx Hbb).
Qed.

End ImageLoopV1Facts.

Module ImageLoopV1Extras.
Import Download Orchestrator TopImagesV1 ImageLoopV1 ImageLoopV1Facts.

(** Step 6 of [scrape_brand_report] in src/zenrows_scraper/run_brand_scrape.py
    never raises. Its image entries are one block per chosen image URL, in
    order: one entry, or a success followed by its palette error. A success
    is always a non-empty download whose content type is one of the five of
    [SUPPORTED_CT], renamed to [img_<idx>.<ext>]. Every image URL whose block
    is a single success has a palette, and every palette key is a chosen
    image URL, stored once, backed by a recorded success at the palette's
    path. *)
Theorem download_images_v1_shape (E : env) (image_urls : list string) :
  let top := choose_top_images_v1 image_urls 10 in
  let '(s, r) := download_images_v1 E image_urls in
  r = inr tt /\
  (exists blocks, length blocks = length top /\ downloaded_images s = concat blocks /\
     forall i u b, nth_error top i = Some u -> nth_error blocks i = Some b ->
       image_block_v1 i u b /\
       (forall e, b = [e] -> e_ok e = true -> exists v, In (u, v) (palettes_by_image_url s))) /\
  pal_inv_v1 top s.
Proof.
  cbn zeta. unfold download_images_v1.
  destruct (image_loop_v1 E 0 _ empty_state) as [s r] eqn:Hrun.
  apply (image_loop_v1_shape E (choose_top_images_v1 image_urls 10)) in Hrun
    as [-> [Hinv [_ [blocks [Hlen [Hi Hnth]]]]]];
    [|intros u Hu; exact Hu|split; [constructor|intros k v []]].
  split; [reflexivity|]. split; [|exact Hinv].
  exists blocks. split; [exact Hlen|]. split; [exact Hi|]. exact Hnth.
Qed.

End ImageLoopV1Extras.
